(** * RateLimitContext: a two-window token bucket and a sequential drain

    Shallow embedding of [src/components/contexts/RateLimitContext.tsx].

    Conventions of the embedding.
    - A JavaScript [number] is either a finite value, kept as an exact
      rational, or [NaN].  Rounding and the infinities are not modelled:
      the program only multiplies, subtracts, divides by the literals 100
      and 1000, compares with 0 and takes [Math.max].
    - [Date.now()] is an input: every function that reads the clock takes
      the reading as an argument [now], in milliseconds.
    - React refs and display state are fields of one record that is passed
      explicitly.  [setState] is taken to be visible at once.
    - An [await] that takes real time lets timer callbacks run.  Which
      callbacks run during the k-th such suspension is given by a schedule
      [Schedule := nat -> list TimerEvent]; the run keeps a cursor into it.
    - The polling loop of [consumeToken] is bounded by a number of observed
      polls; a call that is still waiting when the observation ends is
      [Pending]. *)

From Stdlib Require Import ZArith QArith Qround Bool List Sorted String.
From Stdlib Require Import Lia Lqa.
Import ListNotations.

Set Implicit Arguments.

(** ** JavaScript numbers *)

Module JsNumber.

Inductive number : Type :=
| Num (q : Q)
| NaN.

Definition ofZ (z : Z) : number := Num (inject_Z z).

(** [a * b] *)
Definition mul (a b : number) : number :=
  match a, b with
  | Num x, Num y => Num (x * y)
  | _, _ => NaN
  end.

(** [a - b] *)
Definition sub (a b : number) : number :=
  match a, b with
  | Num x, Num y => Num (x - y)
  | _, _ => NaN
  end.

(** [a / b].  The only divisors in the program are the literals 100 and
    1000; a zero divisor (an infinity or NaN in JavaScript) is sent to
    [NaN]. *)
Definition div (a b : number) : number :=
  match a, b with
  | Num x, Num y => if Qeq_bool y 0 then NaN else Num (x / y)
  | _, _ => NaN
  end.

(** [a <= b]: false as soon as one side is NaN. *)
Definition le (a b : number) : bool :=
  match a, b with
  | Num x, Num y => Qle_bool x y
  | _, _ => false
  end.

(** [Math.max(a, b)]: NaN as soon as one argument is NaN. *)
Definition max (a b : number) : number :=
  match a, b with
  | Num x, Num y => if Qle_bool x y then Num y else Num x
  | _, _ => NaN
  end.

(** Numeric equality of two numbers ([NaN] equals nothing). *)
Definition eqb (a b : number) : bool :=
  match a, b with
  | Num x, Num y => Qeq_bool x y
  | _, _ => false
  end.

(** Order facts used in the statements: each is false on [NaN]. *)
Definition positive (a : number) : Prop :=
  match a with Num x => (0 < x)%Q | NaN => False end.

Definition nonpositive (a : number) : Prop :=
  match a with Num x => (x <= 0)%Q | NaN => False end.

Definition negative (a : number) : Prop :=
  match a with Num x => (x < 0)%Q | NaN => False end.

(** [between0 a c]: both are finite and [0 <= a <= c]. *)
Definition between0 (a c : number) : Prop :=
  match a, c with
  | Num x, Num y => (0 <= x)%Q /\ (x <= y)%Q
  | _, _ => False
  end.

Definition between0b (a c : number) : bool :=
  match a, c with
  | Num x, Num y => Qle_bool 0 x && Qle_bool x y
  | _, _ => false
  end.

End JsNumber.

Import JsNumber.

(** [x ?? d] on an optional value. *)
Definition nullish {A : Type} (x : option A) (d : A) : A :=
  match x with
  | Some v => v
  | None => d
  end.

(** ** Configuration *)

(** The two environment variables, already coerced to numbers ([None] when
    the variable is not set), and the [bufferPercentage] prop ([None] when
    the prop is left out). *)
Record Config : Type := {
  env_RATE_LIMIT_PER_SECOND : option number;
  env_RATE_LIMIT_PER_MINUTE : option number;
  bufferPercentage : option number
}.

Definition DATOCMS_CDA_RATE_LIMIT_PER_SECOND (cfg : Config) : number :=
  nullish (env_RATE_LIMIT_PER_SECOND cfg) (ofZ 60).

Definition DATOCMS_CDA_RATE_LIMIT_PER_MINUTE (cfg : Config) : number :=
  nullish (env_RATE_LIMIT_PER_MINUTE cfg) (ofZ 1000).

Definition maxTokensPerSecond (cfg : Config) : number :=
  DATOCMS_CDA_RATE_LIMIT_PER_SECOND cfg.

Definition maxTokensPerMinute (cfg : Config) : number :=
  DATOCMS_CDA_RATE_LIMIT_PER_MINUTE cfg.

(** [1 - bufferPercentage / 100], with the prop's default of 10. *)
Definition bufferFactor (cfg : Config) : number :=
  sub (ofZ 1) (div (nullish (bufferPercentage cfg) (ofZ 10)) (ofZ 100)).

Definition adjustedMaxTokensPerSecond (cfg : Config) : number :=
  mul (maxTokensPerSecond cfg) (bufferFactor cfg).

Definition adjustedMaxTokensPerMinute (cfg : Config) : number :=
  mul (maxTokensPerMinute cfg) (bufferFactor cfg).

Definition defaultConfig : Config :=
  {| env_RATE_LIMIT_PER_SECOND := None;
     env_RATE_LIMIT_PER_MINUTE := None;
     bufferPercentage := None |}.

(** ** The provider's state *)

Record RateLimitState : Type := {
  (* refs: the values the logic reads and writes *)
  tokensPerSecondRemainingRef : number;
  tokensPerMinuteRemainingRef : number;
  (* display state *)
  tokensPerSecondRemaining : number;
  tokensPerMinuteRemaining : number;
  perSecondCountdown : number;
  perMinuteCountdown : number;
  (* refs: next refill times, in milliseconds *)
  nextPerSecondRefill : Z;
  nextPerMinuteRefill : Z
}.

(** Completion of a synchronous JavaScript call. *)
Inductive JsError : Type :=
| Error (message : string).

Inductive completion (A : Type) : Type :=
| Normal (a : A)
| Throw (e : JsError).

Arguments Throw {A} e.

(** First render of [RateLimitProvider] at clock reading [now]: the refs
    and the display state start at the adjusted maxima, the countdowns at
    0, the refill times one window ahead (the two clock reads of the
    first render are taken to give the same value).  The body has no
    [throw]. *)
Definition initialState (cfg : Config) (now : Z) : RateLimitState :=
  {| tokensPerSecondRemainingRef := adjustedMaxTokensPerSecond cfg;
     tokensPerMinuteRemainingRef := adjustedMaxTokensPerMinute cfg;
     tokensPerSecondRemaining := adjustedMaxTokensPerSecond cfg;
     tokensPerMinuteRemaining := adjustedMaxTokensPerMinute cfg;
     perSecondCountdown := ofZ 0;
     perMinuteCountdown := ofZ 0;
     nextPerSecondRefill := (now + 1000)%Z;
     nextPerMinuteRefill := (now + 60000)%Z |}.

Definition RateLimitProvider (cfg : Config) (now : Z)
  : completion RateLimitState :=
  Normal (initialState cfg now).

(** ** Token consumption: the two halves of [consumeToken]'s body *)

(** The loop condition
    [tokensPerSecondRemainingRef.current <= 0 ||
     tokensPerMinuteRemainingRef.current <= 0]. *)
Definition mustWait (st : RateLimitState) : bool :=
  le (tokensPerSecondRemainingRef st) (ofZ 0)
  || le (tokensPerMinuteRemainingRef st) (ofZ 0).

(** The straight-line code after the loop: both refs go to
    [Math.max(ref - 1, 0)] and the display state copies them. *)
Definition takeToken (st : RateLimitState) : RateLimitState :=
  let s := max (sub (tokensPerSecondRemainingRef st) (ofZ 1)) (ofZ 0) in
  let m := max (sub (tokensPerMinuteRemainingRef st) (ofZ 1)) (ofZ 0) in
  {| tokensPerSecondRemainingRef := s;
     tokensPerMinuteRemainingRef := m;
     tokensPerSecondRemaining := s;
     tokensPerMinuteRemaining := m;
     perSecondCountdown := perSecondCountdown st;
     perMinuteCountdown := perMinuteCountdown st;
     nextPerSecondRefill := nextPerSecondRefill st;
     nextPerMinuteRefill := nextPerMinuteRefill st |}.

(** ** Timer callbacks *)

(** [updateCountdowns], run every 100 ms. *)
Definition updateCountdowns (now : Z) (st : RateLimitState)
  : RateLimitState :=
  {| tokensPerSecondRemainingRef := tokensPerSecondRemainingRef st;
     tokensPerMinuteRemainingRef := tokensPerMinuteRemainingRef st;
     tokensPerSecondRemaining := tokensPerSecondRemaining st;
     tokensPerMinuteRemaining := tokensPerMinuteRemaining st;
     perSecondCountdown :=
       max (div (ofZ (nextPerSecondRefill st - now)) (ofZ 1000)) (ofZ 0);
     perMinuteCountdown :=
       max (div (ofZ (nextPerMinuteRefill st - now)) (ofZ 1000)) (ofZ 0);
     nextPerSecondRefill := nextPerSecondRefill st;
     nextPerMinuteRefill := nextPerMinuteRefill st |}.

(** The callback of [perSecondInterval]. *)
Definition perSecondInterval (cfg : Config) (now : Z) (st : RateLimitState)
  : RateLimitState :=
  {| tokensPerSecondRemainingRef := adjustedMaxTokensPerSecond cfg;
     tokensPerMinuteRemainingRef := tokensPerMinuteRemainingRef st;
     tokensPerSecondRemaining := adjustedMaxTokensPerSecond cfg;
     tokensPerMinuteRemaining := tokensPerMinuteRemaining st;
     perSecondCountdown := perSecondCountdown st;
     perMinuteCountdown := perMinuteCountdown st;
     nextPerSecondRefill := (now + 1000)%Z;
     nextPerMinuteRefill := nextPerMinuteRefill st |}.

(** The callback of [perMinuteInterval]. *)
Definition perMinuteInterval (cfg : Config) (now : Z) (st : RateLimitState)
  : RateLimitState :=
  {| tokensPerSecondRemainingRef := adjustedMaxTokensPerSecond cfg;
     tokensPerMinuteRemainingRef := adjustedMaxTokensPerMinute cfg;
     tokensPerSecondRemaining := adjustedMaxTokensPerSecond cfg;
     tokensPerMinuteRemaining := adjustedMaxTokensPerMinute cfg;
     perSecondCountdown := perSecondCountdown st;
     perMinuteCountdown := perMinuteCountdown st;
     nextPerSecondRefill := nextPerSecondRefill st;
     nextPerMinuteRefill := (now + 60000)%Z |}.

(** A timer callback together with the clock reading it makes. *)
Inductive TimerEvent : Type :=
| CountdownTick (now : Z)
| PerSecondTick (now : Z)
| PerMinuteTick (now : Z).

Definition fire (cfg : Config) (st : RateLimitState) (e : TimerEvent)
  : RateLimitState :=
  match e with
  | CountdownTick now => updateCountdowns now st
  | PerSecondTick now => perSecondInterval cfg now st
  | PerMinuteTick now => perMinuteInterval cfg now st
  end.

Definition fireAll (cfg : Config) (es : list TimerEvent)
  (st : RateLimitState) : RateLimitState :=
  fold_left (fire cfg) es st.

(** Both counters stand at their capacity. *)
Definition atCapacity (cfg : Config) (st : RateLimitState) : Prop :=
  tokensPerSecondRemainingRef st = adjustedMaxTokensPerSecond cfg
  /\ tokensPerMinuteRemainingRef st = adjustedMaxTokensPerMinute cfg.

(** ** Asynchronous runs *)

Section Limiter.

(** [unknown]: the type of what a task resolves or rejects with.
    [Caller]: the state the progress callback acts on. *)
Variable unknown : Type.
Variable Caller : Type.

(** What the promise returned by a task producer does. *)
Inductive Settlement : Type :=
| Resolves (result : unknown)
| Rejects (reason : unknown)
| NeverSettles.

(** A task producer [() => Promise<unknown>]: how its promise settles and
    for how many suspensions of the run it stays pending before that
    (0: settled without leaving the microtask queue). *)
Record PromiseFn : Type := {
  latency : nat;
  settlement : Settlement
}.

Inductive PromiseState (A : Type) : Type :=
| Fulfilled (a : A)
| Rejected (reason : unknown)
| Pending.

Arguments Rejected {A} reason.
Arguments Pending {A}.

(** What a run does, in the order it does it. *)
Inductive TraceEvent : Type :=
| TokenConsumed
| Invoked (promiseFn : PromiseFn)
| Recorded (result : unknown)
| ProgressUpdate (completed pending : Z).

Definition Schedule : Type := nat -> list TimerEvent.

Record Run : Type := {
  bucket : RateLimitState;
  turn : nat;
  caller : Caller;
  trace : list TraceEvent
}.

Definition emit (e : TraceEvent) (r : Run) : Run :=
  {| bucket := bucket r;
     turn := turn r;
     caller := caller r;
     trace := trace r ++ [e] |}.

Variable cfg : Config.
Variable sched : Schedule.

(** One suspension that takes real time: the timer callbacks scheduled
    for this turn run, then the run resumes. *)
Definition elapse (r : Run) : Run :=
  {| bucket := fireAll cfg (sched (turn r)) (bucket r);
     turn := S (turn r);
     caller := caller r;
     trace := trace r |}.

Fixpoint elapseN (n : nat) (r : Run) : Run :=
  match n with
  | O => r
  | S n' => elapseN n' (elapse r)
  end.

(** The end of [consumeToken]: decrement, update the display. *)
Definition grant (r : Run) : Run :=
  {| bucket := takeToken (bucket r);
     turn := turn r;
     caller := caller r;
     trace := trace r ++ [TokenConsumed] |}.

(** [consumeToken], followed for at most [polls] sleeps of 100 ms. *)
Fixpoint consumeToken (polls : nat) (r : Run) : PromiseState unit * Run :=
  match polls with
  | O =>
      if mustWait (bucket r) then (Pending, r)
      else (Fulfilled tt, grant r)
  | S polls' =>
      if mustWait (bucket r) then consumeToken polls' (elapse r)
      else (Fulfilled tt, grant r)
  end.

(** [onProgressUpdate(completed, totalPromises - completed)]. *)
Definition progress (onProgressUpdate : Z -> Z -> Caller -> Caller)
  (completed pending : Z) (r : Run) : Run :=
  {| bucket := bucket r;
     turn := turn r;
     caller := onProgressUpdate completed pending (caller r);
     trace := trace r ++ [ProgressUpdate completed pending] |}.

(** The [for ... of] loop of [executePromisesWithRateLimit], with its
    locals [results] and [completed] as accumulators. *)
Fixpoint drainLoop (polls : nat)
  (onProgressUpdate : Z -> Z -> Caller -> Caller) (totalPromises : Z)
  (promiseFns : list PromiseFn) (results : list unknown) (completed : Z)
  (r : Run) : PromiseState (list unknown) * Run :=
  match promiseFns with
  | [] => (Fulfilled results, r)
  | promiseFn :: rest =>
      match consumeToken polls r with
      | (Fulfilled _, r1) =>
          let r2 := elapseN (latency promiseFn) (emit (Invoked promiseFn) r1) in
          match settlement promiseFn with
          | Resolves result =>
              let results' := results ++ [result] in
              let completed' := (completed + 1)%Z in
              let r3 := emit (Recorded result) r2 in
              let r4 := progress onProgressUpdate completed'
                          (totalPromises - completed')%Z r3 in
              drainLoop polls onProgressUpdate totalPromises rest
                results' completed' r4
          | Rejects reason => (Rejected reason, r2)
          | NeverSettles => (Pending, r2)
          end
      | (Rejected reason, r1) => (Rejected reason, r1)
      | (Pending, r1) => (Pending, r1)
      end
  end.

Definition executePromisesWithRateLimit (polls : nat)
  (promiseFns : list PromiseFn)
  (onProgressUpdate : Z -> Z -> Caller -> Caller) (r : Run)
  : PromiseState (list unknown) * Run :=
  drainLoop polls onProgressUpdate (Z.of_nat (List.length promiseFns))
    promiseFns [] 0%Z r.

(** ** The context *)

Record RateLimitContextProps : Type := {
  ctx_tokensPerSecondRemaining : number;
  ctx_tokensPerMinuteRemaining : number;
  ctx_perSecondCountdown : number;
  ctx_perMinuteCountdown : number;
  ctx_consumeToken : nat -> Run -> PromiseState unit * Run;
  ctx_executePromisesWithRateLimit :
    nat -> list PromiseFn -> (Z -> Z -> Caller -> Caller) -> Run ->
    PromiseState (list unknown) * Run
}.

(** The default value given to [createContext]. *)
Definition RateLimitContext : RateLimitContextProps :=
  {| ctx_tokensPerSecondRemaining := DATOCMS_CDA_RATE_LIMIT_PER_SECOND cfg;
     ctx_tokensPerMinuteRemaining := DATOCMS_CDA_RATE_LIMIT_PER_MINUTE cfg;
     ctx_perSecondCountdown := ofZ 0;
     ctx_perMinuteCountdown := ofZ 0;
     ctx_consumeToken := fun _ r => (Fulfilled tt, r);
     ctx_executePromisesWithRateLimit := fun _ _ _ r => (Fulfilled [], r) |}.

(** The value a mounted [RateLimitProvider] passes down. *)
Definition providerValue (st : RateLimitState) : RateLimitContextProps :=
  {| ctx_tokensPerSecondRemaining := tokensPerSecondRemaining st;
     ctx_tokensPerMinuteRemaining := tokensPerMinuteRemaining st;
     ctx_perSecondCountdown := perSecondCountdown st;
     ctx_perMinuteCountdown := perMinuteCountdown st;
     ctx_consumeToken := consumeToken;
     ctx_executePromisesWithRateLimit := executePromisesWithRateLimit |}.

Inductive JsValue (A : Type) : Type :=
| JsUndefined
| JsNull
| JsObject (o : A).

Arguments JsUndefined {A}.
Arguments JsNull {A}.

Definition truthy {A : Type} (v : JsValue A) : bool :=
  match v with
  | JsObject _ => true
  | _ => false
  end.

(** [useContext(RateLimitContext)]: the value of the nearest enclosing
    provider, or the default when there is none. *)
Definition useContext (provider : option RateLimitContextProps)
  : JsValue RateLimitContextProps :=
  match provider with
  | Some value => JsObject value
  | None => JsObject RateLimitContext
  end.

Definition useRateLimit (provider : option RateLimitContextProps)
  : completion (JsValue RateLimitContextProps) :=
  let context := useContext provider in
  if negb (truthy context)
  then Throw (Error "useRateLimit must be used within a RateLimitProvider")
  else Normal context.

(** ** Reading a trace *)

Definition newRun (st : RateLimitState) (t : nat) (c : Caller) : Run :=
  {| bucket := st; turn := t; caller := c; trace := [] |}.

(** The producers that were invoked, in the order of invocation. *)
Fixpoint invokedFns (tr : list TraceEvent) : list PromiseFn :=
  match tr with
  | [] => []
  | Invoked promiseFn :: tr' => promiseFn :: invokedFns tr'
  | _ :: tr' => invokedFns tr'
  end.

(** The arguments of the calls of the progress callback, in order. *)
Fixpoint progressCalls (tr : list TraceEvent) : list (Z * Z) :=
  match tr with
  | [] => []
  | ProgressUpdate completed pending :: tr' =>
      (completed, pending) :: progressCalls tr'
  | _ :: tr' => progressCalls tr'
  end.

(** The outcomes pushed to [results], in order. *)
Fixpoint recordedResults (tr : list TraceEvent) : list unknown :=
  match tr with
  | [] => []
  | Recorded result :: tr' => result :: recordedResults tr'
  | _ :: tr' => recordedResults tr'
  end.

(** No producer is invoked while the promise of an earlier one is still
    awaited: [inFlight] is set by an invocation and cleared when the
    outcome is recorded. *)
Fixpoint noOverlapFrom (inFlight : bool) (tr : list TraceEvent) : bool :=
  match tr with
  | [] => true
  | Invoked _ :: tr' => negb inFlight && noOverlapFrom true tr'
  | Recorded _ :: tr' => noOverlapFrom false tr'
  | _ :: tr' => noOverlapFrom inFlight tr'
  end.

Definition noOverlap (tr : list TraceEvent) : bool := noOverlapFrom false tr.

(** Every recorded outcome is followed at once by a progress call, every
    progress call follows a recorded outcome at once. *)
Fixpoint progressFollowsRecord (tr : list TraceEvent) : bool :=
  match tr with
  | [] => true
  | Recorded _ :: tr' =>
      match tr' with
      | ProgressUpdate _ _ :: tr'' => progressFollowsRecord tr''
      | _ => false
      end
  | ProgressUpdate _ _ :: _ => false
  | _ :: tr' => progressFollowsRecord tr'
  end.

(** Between a progress call and the next invocation a token is consumed:
    after a progress call the trace ends or goes on with
    [TokenConsumed]. *)
Fixpoint progressBeforeNext (tr : list TraceEvent) : bool :=
  match tr with
  | [] => true
  | ProgressUpdate _ _ :: tr' =>
      match tr' with
      | [] => true
      | TokenConsumed :: _ => progressBeforeNext tr'
      | _ => false
      end
  | _ :: tr' => progressBeforeNext tr'
  end.

Definition applyCalls (onProgressUpdate : Z -> Z -> Caller -> Caller)
  (calls : list (Z * Z)) (c : Caller) : Caller :=
  fold_left (fun c' call => onProgressUpdate (fst call) (snd call) c')
    calls c.

(** The pairs [(k, total - k)] for [k = from + 1 .. from + n]. *)
Fixpoint countUp (total from : Z) (n : nat) : list (Z * Z) :=
  match n with
  | O => []
  | S n' =>
      ((from + 1)%Z, (total - (from + 1))%Z) :: countUp total (from + 1)%Z n'
  end.

(** [fulfils fn v]: the promise of [fn] resolves with [v]. *)
Definition fulfils (promiseFn : PromiseFn) (v : unknown) : Prop :=
  settlement promiseFn = Resolves v.

(** ** A drain that is never kept waiting for good

    What the loop does when every [consumeToken] returns: the outcome and
    the trace as functions of the queue alone. *)
Fixpoint sequentialOutcome (results : list unknown)
  (promiseFns : list PromiseFn) : PromiseState (list unknown) :=
  match promiseFns with
  | [] => Fulfilled results
  | promiseFn :: rest =>
      match settlement promiseFn with
      | Resolves result => sequentialOutcome (results ++ [result]) rest
      | Rejects reason => Rejected reason
      | NeverSettles => Pending
      end
  end.

Fixpoint sequentialTrace (totalPromises completed : Z)
  (promiseFns : list PromiseFn) : list TraceEvent :=
  match promiseFns with
  | [] => []
  | promiseFn :: rest =>
      match settlement promiseFn with
      | Resolves result =>
          [TokenConsumed; Invoked promiseFn; Recorded result;
           ProgressUpdate (completed + 1)
             (totalPromises - (completed + 1))]
          ++ sequentialTrace totalPromises (completed + 1) rest
      | _ => [TokenConsumed; Invoked promiseFn]
      end
  end.

(** The results of the tasks that resolve before the first one that does
    not. *)
Fixpoint resolvedPrefix (promiseFns : list PromiseFn) : list unknown :=
  match promiseFns with
  | [] => []
  | promiseFn :: rest =>
      match settlement promiseFn with
      | Resolves result => result :: resolvedPrefix rest
      | _ => []
      end
  end.

(** The per-minute callback keeps coming: after every turn there is a
    later one in which it runs. *)
Definition minuteTicksRecur : Prop :=
  forall k : nat, exists (j : nat) (now : Z),
    (k <= j)%nat /\ In (PerMinuteTick now) (sched j).

Definition capacitiesPositive : Prop :=
  positive (adjustedMaxTokensPerSecond cfg)
  /\ positive (adjustedMaxTokensPerMinute cfg).

End Limiter.

Arguments Fulfilled {unknown A} a.
Arguments Rejected {unknown A} reason.
Arguments Pending {unknown A}.
Arguments JsObject {A} o.
Arguments newRun {unknown Caller} st t c.
Arguments JsUndefined {A}.
Arguments JsNull {A}.
Arguments NeverSettles {unknown}.
Arguments TokenConsumed {unknown}.
Arguments ProgressUpdate {unknown} completed pending.

(** ** Interleavings of acquisitions and timer callbacks *)

(** One step on the shared counters: a poll of some [consumeToken] call
    (which either keeps waiting or takes a token), or a timer callback. *)
Inductive Action : Type :=
| AcquirePoll
| Timer (e : TimerEvent).

Definition perform (cfg : Config) (st : RateLimitState) (a : Action)
  : RateLimitState :=
  match a with
  | AcquirePoll => if mustWait st then st else takeToken st
  | Timer e => fire cfg st e
  end.

Definition performAll (cfg : Config) (actions : list Action)
  (st : RateLimitState) : RateLimitState :=
  fold_left (perform cfg) actions st.

Definition capacitiesNonnegative (cfg : Config) : Prop :=
  between0 (adjustedMaxTokensPerSecond cfg) (adjustedMaxTokensPerSecond cfg)
  /\ between0 (adjustedMaxTokensPerMinute cfg) (adjustedMaxTokensPerMinute cfg).

(** Both counters, as the logic and as the display see them, lie between 0
    and their capacity. *)
Definition withinBounds (cfg : Config) (st : RateLimitState) : Prop :=
  between0 (tokensPerSecondRemainingRef st) (adjustedMaxTokensPerSecond cfg)
  /\ between0 (tokensPerMinuteRemainingRef st) (adjustedMaxTokensPerMinute cfg)
  /\ between0 (tokensPerSecondRemaining st) (adjustedMaxTokensPerSecond cfg)
  /\ between0 (tokensPerMinuteRemaining st) (adjustedMaxTokensPerMinute cfg).

Definition withinBoundsb (cfg : Config) (st : RateLimitState) : bool :=
  between0b (tokensPerSecondRemainingRef st) (adjustedMaxTokensPerSecond cfg)
  && between0b (tokensPerMinuteRemainingRef st) (adjustedMaxTokensPerMinute cfg)
  && between0b (tokensPerSecondRemaining st) (adjustedMaxTokensPerSecond cfg)
  && between0b (tokensPerMinuteRemaining st) (adjustedMaxTokensPerMinute cfg).

(** ** The observable snapshot *)

Record Snapshot : Type := {
  secondRemaining : number;
  minuteRemaining : number;
  secondsUntilNextSecondRefill : number;
  secondsUntilNextMinuteRefill : number
}.

(** The four display values of the context value. *)
Definition displayed (st : RateLimitState) : Snapshot :=
  {| secondRemaining := tokensPerSecondRemaining st;
     minuteRemaining := tokensPerMinuteRemaining st;
     secondsUntilNextSecondRefill := perSecondCountdown st;
     secondsUntilNextMinuteRefill := perMinuteCountdown st |}.

(** A snapshot taken at clock reading [now]: [updateCountdowns] runs, then
    the display values are read. *)
Definition snapshot (now : Z) (st : RateLimitState) : Snapshot :=
  displayed (updateCountdowns now st).

(** ** Sample inputs *)

(** [perSecond = 2, perMinute = 100, buffer = 0]. *)
Definition smallConfig : Config :=
  {| env_RATE_LIMIT_PER_SECOND := Some (ofZ 2);
     env_RATE_LIMIT_PER_MINUTE := Some (ofZ 100);
     bufferPercentage := Some (ofZ 0) |}.

(** A rate of 0, a rate that is not a number, a negative buffer. *)
Definition badConfig : Config :=
  {| env_RATE_LIMIT_PER_SECOND := Some (ofZ 0);
     env_RATE_LIMIT_PER_MINUTE := Some NaN;
     bufferPercentage := Some (ofZ (-5)) |}.

(** Turn [k] covers the 100 ms that end at [100 * (k + 1)]: the countdown
    callback runs in every turn, the per-second one every 10th turn, the
    per-minute one every 600th. *)
Definition steadySchedule (k : nat) : list TimerEvent :=
  let now := (100 * Z.of_nat (S k))%Z in
  [CountdownTick now]
  ++ (if (S k mod 10 =? 0)%nat then [PerSecondTick now] else [])
  ++ (if (S k mod 600 =? 0)%nat then [PerMinuteTick now] else []).

(** Five tasks that resolve with their index, each within one turn. *)
Definition indexTask (i : Z) : PromiseFn Z :=
  {| latency := 1; settlement := Resolves i |}.

Definition fiveTasks : list (PromiseFn Z) :=
  map indexTask [0; 1; 2; 3; 4]%Z.

(** The third of five tasks rejects. *)
Definition failingTasks : list (PromiseFn Z) :=
  [indexTask 0; indexTask 1;
   {| latency := 1; settlement := Rejects 7%Z |};
   indexTask 3; indexTask 4].

(** A progress callback that keeps the last pair it was called with, as the
    page does. *)
Definition lastProgress (completed pending : Z) (_ : Z * Z) : Z * Z :=
  (completed, pending).

(** ** Counting tokens and refills *)

(** The callbacks that set the second counter back to its capacity, and
    those that set the minute counter back. *)
Definition isSecondRefill (e : TimerEvent) : bool :=
  match e with
  | PerSecondTick _ | PerMinuteTick _ => true
  | CountdownTick _ => false
  end.

Definition isMinuteRefill (e : TimerEvent) : bool :=
  match e with
  | PerMinuteTick _ => true
  | _ => false
  end.

Definition countRefills (isRefill : TimerEvent -> bool)
  (es : list TimerEvent) : nat :=
  List.length (filter isRefill es).

(** The refills that run in the turns before turn [t]. *)
Fixpoint refillsBefore (isRefill : TimerEvent -> bool) (sched : Schedule)
  (t : nat) : nat :=
  match t with
  | O => O
  | S t' => (refillsBefore isRefill sched t'
             + countRefills isRefill (sched t'))%nat
  end.

(** The tokens taken along an interleaving. *)
Fixpoint tokensGranted (cfg : Config) (actions : list Action)
  (st : RateLimitState) : nat :=
  match actions with
  | [] => O
  | a :: rest =>
      ((match a with
        | AcquirePoll => if mustWait st then 0 else 1
        | Timer _ => 0
        end)
       + tokensGranted cfg rest (perform cfg st a))%nat
  end.

Fixpoint actionRefills (isRefill : TimerEvent -> bool)
  (actions : list Action) : nat :=
  match actions with
  | [] => O
  | AcquirePoll :: rest => actionRefills isRefill rest
  | Timer e :: rest =>
      ((if isRefill e then 1 else 0) + actionRefills isRefill rest)%nat
  end.

(** [atMost a c]: [a] is finite and [a <= c]. *)
Definition atMost (a : number) (c : nat) : Prop :=
  match a with
  | Num q => (q <= inject_Z (Z.of_nat c))%Q
  | NaN => False
  end.

(** [atLeast a k]: [a] is finite and [k <= a]. *)
Definition atLeast (a : number) (k : nat) : Prop :=
  match a with
  | Num q => (inject_Z (Z.of_nat k) <= q)%Q
  | NaN => False
  end.

Section TraceCounts.

Variable unknown : Type.

(** The tokens taken in a trace. *)
Fixpoint tokensConsumed (tr : list (TraceEvent unknown)) : nat :=
  match tr with
  | [] => O
  | TokenConsumed :: tr' => S (tokensConsumed tr')
  | _ :: tr' => tokensConsumed tr'
  end.

(** Every invocation comes right after a token was taken, and every token
    taken is followed at once by an invocation. *)
Fixpoint tokenThenInvoke (tr : list (TraceEvent unknown)) : bool :=
  match tr with
  | [] => true
  | TokenConsumed :: tr' =>
      match tr' with
      | Invoked _ :: tr'' => tokenThenInvoke tr''
      | _ => false
      end
  | Invoked _ :: _ => false
  | _ :: tr' => tokenThenInvoke tr'
  end.

End TraceCounts.

(** One window has a capacity that is not positive and a counter that is
    not positive. *)
Definition starved (cfg : Config) (st : RateLimitState) : Prop :=
  (nonpositive (adjustedMaxTokensPerSecond cfg)
   /\ nonpositive (tokensPerSecondRemainingRef st))
  \/ (nonpositive (adjustedMaxTokensPerMinute cfg)
      /\ nonpositive (tokensPerMinuteRemainingRef st)).

(** Both counters are [NaN]. *)
Definition unlimited (st : RateLimitState) : Prop :=
  tokensPerSecondRemainingRef st = NaN
  /\ tokensPerMinuteRemainingRef st = NaN.

(** ** The clock *)

Definition clockOf (e : TimerEvent) : Z :=
  match e with
  | CountdownTick now => now
  | PerSecondTick now => now
  | PerMinuteTick now => now
  end.

(** The clock readings of the timer callbacks never go back, starting from
    the reading [last]. *)
Fixpoint clockMonotone (last : Z) (actions : list Action) : Prop :=
  match actions with
  | [] => True
  | AcquirePoll :: rest => clockMonotone last rest
  | Timer e :: rest => (last <= clockOf e)%Z /\ clockMonotone (clockOf e) rest
  end.

(** [inRange a hi]: [a] is finite and [0 <= a <= hi]. *)
Definition inRange (a : number) (hi : Z) : Prop :=
  match a with
  | Num q => (0 <= q)%Q /\ (q <= inject_Z hi)%Q
  | NaN => False
  end.

(** Both refill times lie at most one window after the clock reading
    [last]; both countdowns lie within their window. *)
Definition scheduledWithin (st : RateLimitState) (last : Z) : Prop :=
  (nextPerSecondRefill st <= last + 1000)%Z
  /\ (nextPerMinuteRefill st <= last + 60000)%Z
  /\ inRange (perSecondCountdown st) 1
  /\ inRange (perMinuteCountdown st) 60.

(** ** The page: [Home] *)

Module JsMath.

(** [Math.floor(a)] *)
Definition floor (a : number) : number :=
  match a with
  | Num q => Num (inject_Z (Qfloor q))
  | NaN => NaN
  end.

(** Rounding towards 0. *)
Definition truncate (q : Q) : Z :=
  if Qle_bool 0 q then Qfloor q else Qceiling q.

(** [a % b]: the remainder has the sign of [a]; NaN when [b] is 0. *)
Definition rem (a b : number) : number :=
  match a, b with
  | Num x, Num y =>
      if Qeq_bool y 0 then NaN
      else Num (x - y * inject_Z (truncate (x / y)))
  | _, _ => NaN
  end.

End JsMath.

Import JsMath.

(** What the page keeps: the state [completedPromises] and the ref
    [pendingPromisesRef]. *)
Record HomeState : Type := {
  completedPromises : Z;
  pendingPromisesRef : Z
}.

Definition totalPromises : Z := 10000.

(** First render: [useState(0)], [useRef(0)]. *)
Definition homeInitial : HomeState :=
  {| completedPromises := 0; pendingPromisesRef := 0 |}.

(** [n] producers; the promise of producer [i] resolves with [i] after a
    timeout of 10 ms, one suspension of the run. *)
Definition indexProducers (n : nat) : list (PromiseFn Z) :=
  map (fun i => {| latency := 1; settlement := Resolves (Z.of_nat i) |})
      (seq 0 n).

(** [Array.from({ length: totalPromises }, (_, i) => ...)] *)
Definition homePromiseFns : list (PromiseFn Z) :=
  indexProducers (Z.to_nat totalPromises).

(** The page's progress callback. *)
Definition homeOnProgressUpdate (completed pending : Z) (h : HomeState)
  : HomeState :=
  {| completedPromises := completed; pendingPromisesRef := pending |}.

(** The body of the page's effect, for a queue of [n] producers built as
    above: set the pending count to the queue length, then drain through
    the limiter taken from the context. *)
Definition homeEffectOf (n : nat)
  (context : RateLimitContextProps Z HomeState) (polls : nat)
  (r : Run Z HomeState) : PromiseState Z (list Z) * Run Z HomeState :=
  let r0 := {| bucket := bucket r;
               turn := turn r;
               caller := {| completedPromises := completedPromises (caller r);
                            pendingPromisesRef := Z.of_nat n |};
               trace := trace r |} in
  ctx_executePromisesWithRateLimit context polls (indexProducers n)
    homeOnProgressUpdate r0.

Definition homeEffect (context : RateLimitContextProps Z HomeState)
  (polls : nat) (r : Run Z HomeState)
  : PromiseState Z (list Z) * Run Z HomeState :=
  homeEffectOf (Z.to_nat totalPromises) context polls r.

(** The page under an optional provider: it takes the limiter from
    [useRateLimit()] and runs its effect.  Destructuring a value that is
    not an object would throw. *)
Definition Home (cfg : Config)
  (provider : option (RateLimitContextProps Z HomeState)) (polls : nat)
  (r : Run Z HomeState)
  : completion (PromiseState Z (list Z) * Run Z HomeState) :=
  match useRateLimit cfg provider with
  | Normal (JsObject context) => Normal (homeEffect context polls r)
  | Normal _ => Throw (Error "TypeError")
  | Throw e => Throw e
  end.

(** Whether the [then] handler that logs "All promises resolved" runs. *)
Definition allResolvedLogged (out : PromiseState Z (list Z) * Run Z HomeState)
  : bool :=
  match fst out with
  | Fulfilled _ => true
  | _ => false
  end.

(** [(completedPromises / totalPromises) * 100] *)
Definition progressPercentage (h : HomeState) : number :=
  mul (div (ofZ (completedPromises h)) (ofZ totalPromises)) (ofZ 100).

Definition perMinuteCountdownMinutes (perMinuteCountdown : number) : number :=
  floor (div perMinuteCountdown (ofZ 60)).

Definition perMinuteCountdownSeconds (perMinuteCountdown : number) : number :=
  floor (rem perMinuteCountdown (ofZ 60)).

(** A configuration whose buffer is not a number. *)
Definition nanBufferConfig : Config :=
  {| env_RATE_LIMIT_PER_SECOND := None;
     env_RATE_LIMIT_PER_MINUTE := None;
     bufferPercentage := Some NaN |}.

(** A buffer of 100 percent: both capacities are 0. *)
Definition fullBufferConfig : Config :=
  {| env_RATE_LIMIT_PER_SECOND := None;
     env_RATE_LIMIT_PER_MINUTE := None;
     bufferPercentage := Some (ofZ 100) |}.

(** * Properties *)

(** ** Numbers *)

Lemma ofZ_0 : ofZ 0 = Num 0.
Proof. reflexivity. Qed.

Lemma ofZ_1 : ofZ 1 = Num 1.
Proof. reflexivity. Qed.

Lemma le_0_true (a : number) :
  le a (ofZ 0) = true <-> nonpositive a.
Proof.
  destruct a as [x|]; cbn [le ofZ nonpositive].
  - change (inject_Z 0) with 0%Q. apply Qle_bool_iff.
  - split; [discriminate | tauto].
Qed.

Lemma le_0_false_of_positive (a : number) :
  positive a -> le a (ofZ 0) = false.
Proof.
  destruct a as [x|]; cbn [positive]; [|tauto].
  intros Hx. destruct (le (Num x) (ofZ 0)) eqn:E; [|reflexivity].
  apply le_0_true in E. cbn [nonpositive] in E. lra.
Qed.

Lemma between0_refl_of_positive (c : number) :
  positive c -> between0 c c.
Proof.
  destruct c as [x|]; cbn [positive between0]; [|tauto].
  intros Hx. split; lra.
Qed.

(** [Math.max(a - 1, 0)] on a finite number. *)
Lemma decrement_Num (x : Q) :
  max (sub (Num x) (ofZ 1)) (ofZ 0)
  = if Qle_bool (x - 1) 0 then Num 0 else Num (x - 1).
Proof. reflexivity. Qed.

Lemma decrement_not_negative (a : number) :
  ~ negative (max (sub a (ofZ 1)) (ofZ 0)).
Proof.
  destruct a as [x|]; [|cbn; tauto].
  rewrite decrement_Num.
  destruct (Qle_bool (x - 1) 0) eqn:E; cbn [negative].
  - lra.
  - intros Hneg. assert (Hle : (x - 1 <= 0)%Q) by lra.
    apply Qle_bool_iff in Hle. congruence.
Qed.

Lemma decrement_between0 (a c : number) :
  between0 a c -> between0 (max (sub a (ofZ 1)) (ofZ 0)) c.
Proof.
  destruct a as [x|], c as [y|]; cbn [between0]; try tauto.
  intros [H0 Hc]. rewrite decrement_Num.
  destruct (Qle_bool (x - 1) 0) eqn:E; cbn [between0].
  - split; lra.
  - split; [|lra].
    destruct (Qlt_le_dec (x - 1) 0) as [Hlt|Hge]; [|exact Hge].
    assert (Hle : (x - 1 <= 0)%Q) by lra.
    apply Qle_bool_iff in Hle. congruence.
Qed.

Lemma between0_iff (a c : number) :
  between0b a c = true <-> between0 a c.
Proof.
  destruct a as [x|], c as [y|]; cbn [between0 between0b];
    try (split; [discriminate | tauto]).
  rewrite andb_true_iff, !Qle_bool_iff. tauto.
Qed.

(** A quotient by the literal 1000, floored at 0, is a finite number that
    is not below 0. *)
Lemma countdown_floor (z : Z) :
  exists q : Q,
    max (div (ofZ z) (ofZ 1000)) (ofZ 0) = Num q /\ (0 <= q)%Q.
Proof.
  unfold ofZ, div. change (Qeq_bool (inject_Z 1000) 0) with false.
  cbv iota. unfold max. change (inject_Z 0) with 0%Q.
  destruct (Qle_bool (inject_Z z / inject_Z 1000) 0) eqn:E.
  - exists 0%Q. split; [reflexivity | lra].
  - exists (inject_Z z / inject_Z 1000)%Q. split; [reflexivity|].
    destruct (Qlt_le_dec (inject_Z z / inject_Z 1000) 0) as [Hlt|Hge];
      [|exact Hge].
    assert (Hle : (inject_Z z / inject_Z 1000 <= 0)%Q) by lra.
    apply Qle_bool_iff in Hle. congruence.
Qed.

(** ** The counters under acquisitions and timer callbacks *)

Lemma withinBounds_iff (cfg : Config) (st : RateLimitState) :
  withinBoundsb cfg st = true <-> withinBounds cfg st.
Proof.
  unfold withinBoundsb, withinBounds.
  rewrite !andb_true_iff, !between0_iff. tauto.
Qed.

Lemma withinBounds_capacities (cfg : Config) (st : RateLimitState) :
  withinBounds cfg st -> capacitiesNonnegative cfg.
Proof.
  unfold withinBounds, capacitiesNonnegative.
  destruct (tokensPerSecondRemainingRef st) as [s|],
           (tokensPerMinuteRemainingRef st) as [m|],
           (adjustedMaxTokensPerSecond cfg) as [cs|],
           (adjustedMaxTokensPerMinute cfg) as [cm|];
    cbn [between0]; try tauto.
  intros [[? ?] [[? ?] _]]. repeat split; lra.
Qed.

Lemma withinBounds_initialState (cfg : Config) (now : Z) :
  capacitiesNonnegative cfg -> withinBounds cfg (initialState cfg now).
Proof.
  intros [Hs Hm]. unfold withinBounds. cbn. tauto.
Qed.

Lemma withinBounds_takeToken (cfg : Config) (st : RateLimitState) :
  withinBounds cfg st -> withinBounds cfg (takeToken st).
Proof.
  intros (Hs & Hm & _ & _). unfold withinBounds. cbn.
  auto using decrement_between0.
Qed.

Lemma withinBounds_fire (cfg : Config) (st : RateLimitState)
  (e : TimerEvent) :
  withinBounds cfg st -> withinBounds cfg (fire cfg st e).
Proof.
  intros H. pose proof (withinBounds_capacities H) as [Cs Cm].
  destruct H as (Hs & Hm & Ds & Dm).
  destruct e; unfold withinBounds; cbn; tauto.
Qed.

Lemma withinBounds_perform (cfg : Config) (st : RateLimitState)
  (a : Action) :
  withinBounds cfg st -> withinBounds cfg (perform cfg st a).
Proof.
  intros H. destruct a as [|e]; cbn [perform].
  - destruct (mustWait st); auto using withinBounds_takeToken.
  - apply withinBounds_fire, H.
Qed.

Lemma withinBounds_performAll (cfg : Config) (actions : list Action) :
  forall st, withinBounds cfg st ->
             withinBounds cfg (performAll cfg actions st).
Proof.
  unfold performAll.
  induction actions as [|a actions IH]; intros st H; cbn [fold_left].
  - exact H.
  - apply IH, withinBounds_perform, H.
Qed.

(** C3.  Starting from the first render of a provider whose two capacities
    are finite and not below 0, every interleaving of acquisition polls,
    per-second refills, per-minute refills and countdown updates leaves
    [0 <= secondRemaining <= secondCapacity] and
    [0 <= minuteRemaining <= minuteCapacity], for the refs and for the
    displayed values; and each single operation preserves these bounds
    from any state that satisfies them. *)
Theorem counters_within_bounds (cfg : Config) (now : Z)
  (actions : list Action) :
  capacitiesNonnegative cfg ->
  withinBounds cfg (performAll cfg actions (initialState cfg now))
  /\ (forall st a, withinBounds cfg st -> withinBounds cfg (perform cfg st a)).
Proof.
  intros Hcap. split.
  - apply withinBounds_performAll, withinBounds_initialState, Hcap.
  - intros st a. apply withinBounds_perform.
Qed.

(** A run of concrete actions from the default configuration, evaluated. *)
Example bounds_after_burst :
  withinBoundsb defaultConfig
    (performAll defaultConfig
       [AcquirePoll; AcquirePoll; Timer (PerSecondTick 1003); AcquirePoll;
        Timer (CountdownTick 1100); Timer (PerMinuteTick 60010); AcquirePoll]
       (initialState defaultConfig 0)) = true.
Proof. vm_compute. reflexivity. Qed.

(** ** Refills *)

(** C5.  The per-minute callback sets the minute counter and the second
    counter to their capacities in one step (refs and displayed values),
    and leaves the per-second refill time as it was. *)
Theorem minute_refill_resets_both (cfg : Config) (now : Z)
  (st : RateLimitState) :
  let st' := perMinuteInterval cfg now st in
  tokensPerMinuteRemainingRef st' = adjustedMaxTokensPerMinute cfg
  /\ tokensPerSecondRemainingRef st' = adjustedMaxTokensPerSecond cfg
  /\ tokensPerMinuteRemaining st' = adjustedMaxTokensPerMinute cfg
  /\ tokensPerSecondRemaining st' = adjustedMaxTokensPerSecond cfg
  /\ nextPerSecondRefill st' = nextPerSecondRefill st.
Proof. cbn. repeat split. Qed.

(** C8, as the spec states it, fails: the first render at clock reading 0
    schedules the per-second refill for 1000; when the callback runs at
    1004 the next refill time becomes 2004, not 1000 + 1000. *)
Lemma refill_not_from_previous_schedule :
  let st := initialState defaultConfig 0 in
  nextPerSecondRefill st = 1000%Z
  /\ nextPerSecondRefill (perSecondInterval defaultConfig 1004 st)
     <> (nextPerSecondRefill st + 1000)%Z
  /\ nextPerMinuteRefill (perMinuteInterval defaultConfig 60004 st)
     <> (nextPerMinuteRefill st + 60000)%Z.
Proof. cbn. repeat split; discriminate. Qed.

(** C8, amended.  A refill sets the remaining count of its window to the
    capacity, whatever the count was before (nothing is carried over, and
    a second refill changes nothing more), and sets the window's next
    refill time to one window length (1000 ms, 60000 ms) after the clock
    reading the callback makes when it runs. *)
Theorem refill_resets_and_reschedules (cfg : Config) (now : Z)
  (st : RateLimitState) :
  (tokensPerSecondRemainingRef (perSecondInterval cfg now st)
     = adjustedMaxTokensPerSecond cfg
   /\ nextPerSecondRefill (perSecondInterval cfg now st) = (now + 1000)%Z)
  /\ (tokensPerMinuteRemainingRef (perMinuteInterval cfg now st)
        = adjustedMaxTokensPerMinute cfg
      /\ nextPerMinuteRefill (perMinuteInterval cfg now st)
         = (now + 60000)%Z)
  /\ (forall now' : Z,
        tokensPerSecondRemainingRef
          (perSecondInterval cfg now' (perSecondInterval cfg now st))
        = adjustedMaxTokensPerSecond cfg
        /\ tokensPerMinuteRemainingRef
             (perMinuteInterval cfg now' (perMinuteInterval cfg now st))
           = adjustedMaxTokensPerMinute cfg).
Proof. cbn. repeat split. Qed.

(** ** Construction *)

(** C7, as the spec states it, fails: with a per-second rate of 0, a
    per-minute rate that is not a number and a negative buffer the provider
    is constructed all the same, with a second counter of 0 and a minute
    counter that is not a number. *)
Lemma construction_accepts_bad_configuration :
  RateLimitProvider badConfig 0 = Normal (initialState badConfig 0)
  /\ (forall e : JsError, RateLimitProvider badConfig 0 <> Throw e)
  /\ nonpositive (maxTokensPerSecond badConfig)
  /\ maxTokensPerMinute badConfig = NaN
  /\ negative (nullish (bufferPercentage badConfig) (ofZ 10))
  /\ eqb (tokensPerSecondRemainingRef (initialState badConfig 0)) (ofZ 0)
     = true
  /\ tokensPerMinuteRemainingRef (initialState badConfig 0) = NaN.
Proof.
  repeat split; try reflexivity; try discriminate.
  all: vm_compute; discriminate.
Qed.

(** C7, amended.  Construction never fails: for every configuration,
    positive or not, numeric or not, the provider is constructed, and its
    two counters start at [max * (1 - bufferPercentage / 100)]. *)
Theorem construction_never_fails (cfg : Config) (now : Z) :
  RateLimitProvider cfg now = Normal (initialState cfg now)
  /\ (forall e : JsError, RateLimitProvider cfg now <> Throw e)
  /\ tokensPerSecondRemainingRef (initialState cfg now)
     = mul (maxTokensPerSecond cfg) (bufferFactor cfg)
  /\ tokensPerMinuteRemainingRef (initialState cfg now)
     = mul (maxTokensPerMinute cfg) (bufferFactor cfg).
Proof. repeat split; discriminate. Qed.

Example default_capacities :
  eqb (adjustedMaxTokensPerSecond defaultConfig) (ofZ 54) = true
  /\ eqb (adjustedMaxTokensPerMinute defaultConfig) (ofZ 900) = true.
Proof. split; vm_compute; reflexivity. Qed.

(** ** Snapshots *)

(** C9, as the spec states it, fails: two snapshots with no acquisition and
    no refill in between, the first at clock reading 0 and the second at
    100, show different countdowns (1 s and 0.9 s to the per-second
    refill). *)
Lemma snapshots_differ_as_time_passes :
  let st := initialState defaultConfig 0 in
  let first := snapshot 0 st in
  let second := snapshot 100 (updateCountdowns 0 st) in
  first <> second
  /\ eqb (secondsUntilNextSecondRefill first)
         (secondsUntilNextSecondRefill second) = false
  /\ eqb (secondsUntilNextMinuteRefill first)
         (secondsUntilNextMinuteRefill second) = false.
Proof.
  cbv zeta. repeat split; try (vm_compute; reflexivity).
  vm_compute. discriminate.
Qed.

(** C9, amended.  Taking a snapshot changes neither counter and neither
    refill time; with no acquisition and no refill in between, a later
    snapshot shows the same two remaining counts whatever the clock says,
    and the same four values when the clock reading is the same; both
    countdowns are finite and not below 0. *)
Theorem snapshot_reads_without_effect (now now' : Z) (st : RateLimitState) :
  (tokensPerSecondRemainingRef (updateCountdowns now st)
     = tokensPerSecondRemainingRef st
   /\ tokensPerMinuteRemainingRef (updateCountdowns now st)
      = tokensPerMinuteRemainingRef st
   /\ nextPerSecondRefill (updateCountdowns now st) = nextPerSecondRefill st
   /\ nextPerMinuteRefill (updateCountdowns now st) = nextPerMinuteRefill st)
  /\ (secondRemaining (snapshot now' (updateCountdowns now st))
        = secondRemaining (snapshot now st)
      /\ minuteRemaining (snapshot now' (updateCountdowns now st))
         = minuteRemaining (snapshot now st))
  /\ snapshot now (updateCountdowns now st) = snapshot now st
  /\ (exists qs qm : Q,
        secondsUntilNextSecondRefill (snapshot now st) = Num qs
        /\ secondsUntilNextMinuteRefill (snapshot now st) = Num qm
        /\ (0 <= qs)%Q /\ (0 <= qm)%Q).
Proof.
  repeat split.
  destruct (countdown_floor (nextPerSecondRefill st - now)) as (qs & Es & Hs).
  destruct (countdown_floor (nextPerMinuteRefill st - now)) as (qm & Em & Hm).
  exists qs, qm. cbn. auto.
Qed.

(** ** Acquiring a token *)

Section ConsumeToken.

Variables unknown Caller : Type.
Variable cfg : Config.
Variable sched : Schedule.

Lemma elapseN_S (n : nat) (r : Run unknown Caller) :
  elapseN cfg sched (S n) r = elapse cfg sched (elapseN cfg sched n r).
Proof.
  revert r. induction n as [|n IH]; intros r.
  - reflexivity.
  - change (elapseN cfg sched (S (S n)) r)
      with (elapseN cfg sched (S n) (elapse cfg sched r)).
    rewrite IH. reflexivity.
Qed.

Lemma trace_elapseN (n : nat) (r : Run unknown Caller) :
  trace (elapseN cfg sched n r) = trace r.
Proof.
  revert r. induction n as [|n IH]; intros r; cbn [elapseN].
  - reflexivity.
  - rewrite IH. reflexivity.
Qed.

Lemma caller_elapseN (n : nat) (r : Run unknown Caller) :
  caller (elapseN cfg sched n r) = caller r.
Proof.
  revert r. induction n as [|n IH]; intros r; cbn [elapseN].
  - reflexivity.
  - rewrite IH. reflexivity.
Qed.

Lemma turn_elapseN (n : nat) (r : Run unknown Caller) :
  turn (elapseN cfg sched n r) = (n + turn r)%nat.
Proof.
  revert r. induction n as [|n IH]; intros r; cbn [elapseN].
  - reflexivity.
  - rewrite IH. cbn [elapse turn]. lia.
Qed.

(** While the loop condition holds the call sleeps and polls again. *)
Lemma consumeToken_waits (n : nat) :
  forall r : Run unknown Caller,
    (forall i, (i < n)%nat ->
               mustWait (bucket (elapseN cfg sched i r)) = true) ->
    forall polls, (polls < n)%nat ->
      consumeToken cfg sched polls r
      = (Pending, elapseN cfg sched polls r).
Proof.
  induction n as [|n IH]; intros r Hwait polls Hlt; [lia|].
  pose proof (Hwait 0%nat ltac:(lia)) as H0. cbn [elapseN] in H0.
  destruct polls as [|polls]; cbn [consumeToken elapseN]; rewrite H0.
  - reflexivity.
  - apply IH; [|lia].
    intros i Hi. apply (Hwait (S i)). lia.
Qed.

(** At the first poll at which the loop condition fails the call takes a
    token and returns. *)
Lemma consumeToken_grants (n : nat) :
  forall r : Run unknown Caller,
    (forall i, (i < n)%nat ->
               mustWait (bucket (elapseN cfg sched i r)) = true) ->
    mustWait (bucket (elapseN cfg sched n r)) = false ->
    forall polls, (n <= polls)%nat ->
      consumeToken cfg sched polls r
      = (Fulfilled tt, grant (elapseN cfg sched n r)).
Proof.
  induction n as [|n IH]; intros r Hwait Hgo polls Hle.
  - cbn [elapseN] in *.
    destruct polls; cbn [consumeToken]; rewrite Hgo; reflexivity.
  - pose proof (Hwait 0%nat ltac:(lia)) as H0. cbn [elapseN] in H0.
    destruct polls as [|polls]; [lia|].
    cbn [consumeToken elapseN]. rewrite H0.
    apply IH; [|exact Hgo|lia].
    intros i Hi. apply (Hwait (S i)). lia.
Qed.

(** Whenever the call returns, it returns from a state in which the loop
    condition failed, with one token taken. *)
Lemma consumeToken_returned (polls : nat) :
  forall (r r' : Run unknown Caller),
    consumeToken cfg sched polls r = (Fulfilled tt, r') ->
    exists n, (n <= polls)%nat
              /\ mustWait (bucket (elapseN cfg sched n r)) = false
              /\ r' = grant (elapseN cfg sched n r).
Proof.
  induction polls as [|polls IH]; intros r r' H; cbn [consumeToken] in H;
    destruct (mustWait (bucket r)) eqn:E.
  - discriminate.
  - exists 0%nat. cbn [elapseN]. repeat split; [lia|exact E|congruence].
  - destruct (IH _ _ H) as (n & Hn & Hgo & Hr').
    exists (S n). cbn [elapseN]. repeat split; [lia|exact Hgo|exact Hr'].
  - exists 0%nat. cbn [elapseN]. repeat split; [lia|exact E|congruence].
Qed.

Lemma consumeToken_never_rejects (polls : nat) :
  forall (r r' : Run unknown Caller) (reason : unknown),
    consumeToken cfg sched polls r <> (Rejected reason, r').
Proof.
  induction polls as [|polls IH]; intros r r' reason; cbn [consumeToken];
    destruct (mustWait (bucket r)); try discriminate.
  apply IH.
Qed.

Lemma mustWait_true_iff (st : RateLimitState) :
  mustWait st = true
  <-> nonpositive (tokensPerSecondRemainingRef st)
      \/ nonpositive (tokensPerMinuteRemainingRef st).
Proof.
  unfold mustWait. rewrite orb_true_iff, !le_0_true. tauto.
Qed.

Lemma mustWait_false_of_positive (st : RateLimitState) :
  positive (tokensPerSecondRemainingRef st) ->
  positive (tokensPerMinuteRemainingRef st) ->
  mustWait st = false.
Proof.
  intros Hs Hm. unfold mustWait.
  rewrite (le_0_false_of_positive _ Hs), (le_0_false_of_positive _ Hm).
  reflexivity.
Qed.

(** C2.  Follow one call of [consumeToken] poll by poll.  If at each of
    the first [n] polls the second counter or the minute counter is
    [<= 0], and at poll [n] both are [> 0], then the call is still
    waiting after fewer than [n] sleeps, and from [n] sleeps on it has
    returned: both counters of the state it woke up in went to
    [Math.max(counter - 1, 0)], and neither is negative.  Besides,
    whenever the call returns, neither counter is negative. *)
Theorem consumeToken_waits_then_takes_one (n : nat) (r : Run unknown Caller) :
  (forall i, (i < n)%nat ->
     nonpositive (tokensPerSecondRemainingRef
                    (bucket (elapseN cfg sched i r)))
     \/ nonpositive (tokensPerMinuteRemainingRef
                       (bucket (elapseN cfg sched i r)))) ->
  positive (tokensPerSecondRemainingRef (bucket (elapseN cfg sched n r))) ->
  positive (tokensPerMinuteRemainingRef (bucket (elapseN cfg sched n r))) ->
  let woke := elapseN cfg sched n r in
  (forall polls, (polls < n)%nat ->
     consumeToken cfg sched polls r = (Pending, elapseN cfg sched polls r))
  /\ (forall polls, (n <= polls)%nat ->
        exists r',
          consumeToken cfg sched polls r = (Fulfilled tt, r')
          /\ tokensPerSecondRemainingRef (bucket r')
             = max (sub (tokensPerSecondRemainingRef (bucket woke)) (ofZ 1))
                   (ofZ 0)
          /\ tokensPerMinuteRemainingRef (bucket r')
             = max (sub (tokensPerMinuteRemainingRef (bucket woke)) (ofZ 1))
                   (ofZ 0)
          /\ turn r' = (n + turn r)%nat)
  /\ (forall polls (r0 r' : Run unknown Caller),
        consumeToken cfg sched polls r0 = (Fulfilled tt, r') ->
        ~ negative (tokensPerSecondRemainingRef (bucket r'))
        /\ ~ negative (tokensPerMinuteRemainingRef (bucket r'))).
Proof.
  intros Hwait Hs Hm woke.
  assert (Hwait' : forall i, (i < n)%nat ->
            mustWait (bucket (elapseN cfg sched i r)) = true).
  { intros i Hi. apply mustWait_true_iff, Hwait, Hi. }
  pose proof (mustWait_false_of_positive _ Hs Hm) as Hgo.
  split; [|split].
  - intros polls Hlt. apply consumeToken_waits with (n := n); assumption.
  - intros polls Hle. exists (grant woke). split.
    + apply consumeToken_grants; assumption.
    + cbn [grant bucket takeToken tokensPerSecondRemainingRef
             tokensPerMinuteRemainingRef turn].
      repeat split. apply turn_elapseN.
  - intros polls r0 r' Hret.
    apply consumeToken_returned in Hret. destruct Hret as (k & _ & _ & ->).
    cbn [grant bucket takeToken tokensPerSecondRemainingRef
           tokensPerMinuteRemainingRef].
    split; apply decrement_not_negative.
Qed.

End ConsumeToken.

(** ** Progress of the polling loop *)

Section Progress.

Variables unknown Caller : Type.
Variable cfg : Config.
Variable sched : Schedule.
Hypothesis Hcap : capacitiesPositive cfg.
Hypothesis Hfair : minuteTicksRecur sched.

Lemma atCapacity_fire (st : RateLimitState) (e : TimerEvent) :
  atCapacity cfg st -> atCapacity cfg (fire cfg st e).
Proof.
  intros [Hs Hm]. destruct e; unfold atCapacity; cbn; auto.
Qed.

Lemma atCapacity_fireAll (es : list TimerEvent) :
  forall st, atCapacity cfg st -> atCapacity cfg (fireAll cfg es st).
Proof.
  unfold fireAll. induction es as [|e es IH]; intros st H; cbn [fold_left].
  - exact H.
  - apply IH, atCapacity_fire, H.
Qed.

Lemma atCapacity_after_minute_tick (es : list TimerEvent) (now : Z) :
  In (PerMinuteTick now) es ->
  forall st, atCapacity cfg (fireAll cfg es st).
Proof.
  unfold fireAll. induction es as [|e es IH]; intros Hin st.
  - contradiction.
  - cbn [fold_left]. destruct Hin as [->|Hin].
    + apply (atCapacity_fireAll es). unfold atCapacity. cbn. auto.
    + apply IH, Hin.
Qed.

Lemma mustWait_false_atCapacity (st : RateLimitState) :
  atCapacity cfg st -> mustWait st = false.
Proof.
  intros [Hs Hm]. destruct Hcap as [Ps Pm].
  apply mustWait_false_of_positive; [rewrite Hs | rewrite Hm]; assumption.
Qed.

(** Some poll finds both counters above 0: at the latest the one after
    the next per-minute refill. *)
Lemma first_free_poll (d : nat) :
  forall (r : Run unknown Caller) (j : nat) (now : Z),
    j = (d + turn r)%nat ->
    In (PerMinuteTick now) (sched j) ->
    exists n,
      (forall i, (i < n)%nat ->
                 mustWait (bucket (elapseN cfg sched i r)) = true)
      /\ mustWait (bucket (elapseN cfg sched n r)) = false.
Proof.
  induction d as [|d IH]; intros r j now Hj Hin;
    destruct (mustWait (bucket r)) eqn:E;
    try (exists 0%nat; split; [intros i Hi; lia | exact E]).
  - exists 1%nat. split.
    + intros i Hi. assert (i = 0%nat) as -> by lia. exact E.
    + cbn [elapseN elapse bucket]. apply mustWait_false_atCapacity.
      cbn [Nat.add] in Hj. subst j.
      apply (atCapacity_after_minute_tick _ _ Hin).
  - destruct (IH (elapse cfg sched r) j now) as (n & Hwait & Hgo).
    + cbn [elapse turn]. lia.
    + exact Hin.
    + exists (S n). split; [|exact Hgo].
      intros [|i] Hi; [exact E|]. cbn [elapseN]. apply Hwait. lia.
Qed.

Lemma consumeToken_eventually (r : Run unknown Caller) :
  exists n,
    mustWait (bucket (elapseN cfg sched n r)) = false
    /\ forall polls, (n <= polls)%nat ->
         consumeToken cfg sched polls r
         = (Fulfilled tt, grant (elapseN cfg sched n r)).
Proof.
  destruct (Hfair (turn r)) as (j & now & Hle & Hin).
  destruct (@first_free_poll (j - turn r) r j now ltac:(lia) Hin)
    as (n & Hwait & Hgo).
  exists n. split; [exact Hgo|].
  intros polls Hp. apply consumeToken_grants; assumption.
Qed.

(** With tokens always granted in the end, the loop does what the queue
    alone dictates. *)
Lemma drainLoop_sequential
  (onProgressUpdate : Z -> Z -> Caller -> Caller) (totalPromises : Z)
  (promiseFns : list (PromiseFn unknown)) :
  forall (results : list unknown) (completed : Z) (r : Run unknown Caller),
  exists polls0, forall polls, (polls0 <= polls)%nat ->
    let out := drainLoop cfg sched polls onProgressUpdate totalPromises
                 promiseFns results completed r in
    fst out = sequentialOutcome results promiseFns
    /\ trace (snd out)
       = trace r ++ sequentialTrace totalPromises completed promiseFns
    /\ caller (snd out)
       = applyCalls onProgressUpdate
           (progressCalls
              (sequentialTrace totalPromises completed promiseFns))
           (caller r).
Proof.
  induction promiseFns as [|fn rest IH]; intros results completed r.
  - exists 0%nat. intros polls _. cbn. rewrite app_nil_r. auto.
  - destruct (consumeToken_eventually r) as (n & _ & Hgrant).
    set (r2 := elapseN cfg sched (latency fn)
                 (emit (Invoked fn) (grant (elapseN cfg sched n r)))).
    assert (Ht2 : trace r2 = trace r ++ [TokenConsumed; Invoked fn]).
    { unfold r2. rewrite trace_elapseN. cbn [emit grant trace].
      rewrite trace_elapseN, <- app_assoc. reflexivity. }
    assert (Hc2 : caller r2 = caller r).
    { unfold r2. rewrite caller_elapseN. cbn [emit grant caller].
      apply caller_elapseN. }
    destruct (settlement fn) as [v|reason|] eqn:Hsett.
    + set (r4 := progress onProgressUpdate (completed + 1)
                   (totalPromises - (completed + 1))
                   (emit (Recorded v) r2)).
      destruct (IH (results ++ [v]) (completed + 1)%Z r4)
        as (polls2 & Hrest).
      exists (Nat.max n polls2). intros polls Hp.
      specialize (Hrest polls ltac:(lia)).
      cbn [drainLoop sequentialOutcome sequentialTrace].
      rewrite (Hgrant polls ltac:(lia)), Hsett. fold r2. fold r4.
      cbv zeta in Hrest. destruct Hrest as (Ho & Ht & Hc).
      cbv zeta. split; [exact Ho|]. split.
      * rewrite Ht. unfold r4. cbn [progress emit trace].
        rewrite Ht2, <- !app_assoc. reflexivity.
      * rewrite Hc. unfold r4. cbn [progress emit caller].
        rewrite Hc2. reflexivity.
    + exists n. intros polls Hp.
      cbn [drainLoop sequentialOutcome sequentialTrace].
      rewrite (Hgrant polls Hp), Hsett. fold r2. cbn. auto.
    + exists n. intros polls Hp.
      cbn [drainLoop sequentialOutcome sequentialTrace].
      rewrite (Hgrant polls Hp), Hsett. fold r2. cbn. auto.
Qed.

End Progress.

(** ** What a sequential trace looks like *)

Section SequentialTrace.

Variable unknown : Type.

Implicit Types (promiseFns pre post : list (PromiseFn unknown)).
Implicit Types (vs results : list unknown).

Lemma recorded_sequentialTrace (total : Z) promiseFns :
  forall completed,
    recordedResults (sequentialTrace total completed promiseFns)
    = resolvedPrefix promiseFns.
Proof.
  induction promiseFns as [|fn rest IH]; intros completed;
    cbn [sequentialTrace resolvedPrefix].
  - reflexivity.
  - destruct (settlement fn); cbn; [rewrite IH|..]; reflexivity.
Qed.

Lemma progress_sequentialTrace (total : Z) promiseFns :
  forall completed,
    progressCalls (sequentialTrace total completed promiseFns)
    = countUp total completed (List.length (resolvedPrefix promiseFns)).
Proof.
  induction promiseFns as [|fn rest IH]; intros completed;
    cbn [sequentialTrace resolvedPrefix].
  - reflexivity.
  - destruct (settlement fn); cbn; [rewrite IH|..]; reflexivity.
Qed.

Lemma noOverlap_sequentialTrace (total : Z) promiseFns :
  forall completed,
    noOverlap (sequentialTrace total completed promiseFns) = true.
Proof.
  unfold noOverlap.
  induction promiseFns as [|fn rest IH]; intros completed;
    cbn [sequentialTrace].
  - reflexivity.
  - destruct (settlement fn); cbn; [apply IH|..]; reflexivity.
Qed.

Lemma progressFollowsRecord_sequentialTrace (total : Z) promiseFns :
  forall completed,
    progressFollowsRecord (sequentialTrace total completed promiseFns)
    = true.
Proof.
  induction promiseFns as [|fn rest IH]; intros completed;
    cbn [sequentialTrace].
  - reflexivity.
  - destruct (settlement fn); cbn; [apply IH|..]; reflexivity.
Qed.

Lemma progressBeforeNext_sequentialTrace (total : Z) promiseFns :
  forall completed,
    progressBeforeNext (sequentialTrace total completed promiseFns) = true.
Proof.
  induction promiseFns as [|fn rest IH]; intros completed;
    cbn [sequentialTrace].
  - reflexivity.
  - destruct (settlement fn); [|reflexivity..].
    specialize (IH (completed + 1)%Z).
    destruct rest as [|fn' rest']; [reflexivity|].
    cbn [sequentialTrace] in *.
    destruct (settlement fn'); cbn in *; exact IH.
Qed.

Lemma all_fulfil promiseFns vs :
  Forall2 (@fulfils unknown) promiseFns vs ->
  resolvedPrefix promiseFns = vs
  /\ (forall results,
        sequentialOutcome results promiseFns = Fulfilled (results ++ vs))
  /\ (forall total completed,
        invokedFns (sequentialTrace total completed promiseFns)
        = promiseFns).
Proof.
  induction 1 as [|fn v rest vs' Hfn _ (IHp & IHo & IHi)].
  - repeat split; intros; cbn; rewrite ?app_nil_r; reflexivity.
  - unfold fulfils in Hfn. repeat split; intros;
      cbn [resolvedPrefix sequentialOutcome sequentialTrace];
      rewrite Hfn.
    + rewrite IHp. reflexivity.
    + rewrite IHo, <- app_assoc. reflexivity.
    + cbn. rewrite IHi. reflexivity.
Qed.

Lemma first_rejection pre post vs (fn : PromiseFn unknown)
  (reason : unknown) :
  Forall2 (@fulfils unknown) pre vs ->
  settlement fn = Rejects reason ->
  resolvedPrefix (pre ++ fn :: post) = vs
  /\ (forall results,
        sequentialOutcome results (pre ++ fn :: post) = Rejected reason)
  /\ (forall total completed,
        invokedFns (sequentialTrace total completed (pre ++ fn :: post))
        = pre ++ [fn]).
Proof.
  intros Hpre Hfn.
  induction Hpre as [|fn0 v rest vs' Hfn0 _ (IHp & IHo & IHi)].
  - repeat split; intros;
      cbn [app resolvedPrefix sequentialOutcome sequentialTrace];
      rewrite Hfn; reflexivity.
  - unfold fulfils in Hfn0. repeat split; intros;
      cbn [app resolvedPrefix sequentialOutcome sequentialTrace];
      rewrite Hfn0.
    + cbn [app] in IHp. rewrite IHp. reflexivity.
    + apply IHo.
    + cbn. cbn [app] in IHi. rewrite IHi. reflexivity.
Qed.

Lemma length_countUp (total : Z) (n : nat) :
  forall from, List.length (countUp total from n) = n.
Proof.
  induction n as [|n IH]; intros from; cbn [countUp List.length].
  - reflexivity.
  - rewrite IH. reflexivity.
Qed.

Lemma countUp_sums (total : Z) (n : nat) :
  forall from,
    Forall (fun call => (fst call + snd call)%Z = total)
      (countUp total from n).
Proof.
  induction n as [|n IH]; intros from; cbn [countUp]; constructor.
  - cbn [fst snd]. lia.
  - apply IH.
Qed.

Lemma countUp_above (total : Z) (n : nat) :
  forall from,
    Forall (fun k => (from < k)%Z) (map fst (countUp total from n)).
Proof.
  induction n as [|n IH]; intros from; cbn [countUp map]; constructor.
  - cbn [fst]. lia.
  - eapply Forall_impl; [|apply IH]. cbn beta. intros k Hk. lia.
Qed.

Lemma countUp_increasing (total : Z) (n : nat) :
  forall from, StronglySorted Z.lt (map fst (countUp total from n)).
Proof.
  induction n as [|n IH]; intros from; cbn [countUp map]; constructor.
  - apply IH.
  - cbn [fst]. apply countUp_above.
Qed.

Lemma countUp_last (total : Z) (n : nat) :
  forall from,
    (0 < n)%nat ->
    last (countUp total from n) (0, 0)%Z
    = ((from + Z.of_nat n)%Z, (total - (from + Z.of_nat n))%Z).
Proof.
  induction n as [|n IH]; intros from Hn; [lia|].
  destruct n as [|n'].
  - cbn. reflexivity.
  - change (countUp total from (S (S n')))
      with (((from + 1)%Z, (total - (from + 1))%Z)
            :: countUp total (from + 1) (S n')).
    change (last (?a :: countUp total (from + 1) (S n')) (0, 0)%Z)
      with (last (countUp total (from + 1) (S n')) (0, 0)%Z).
    rewrite IH by lia.
    replace (from + 1 + Z.of_nat (S n'))%Z
      with (from + Z.of_nat (S (S n')))%Z by lia.
    reflexivity.
Qed.

End SequentialTrace.

(** ** Runs that are observed for any length of time *)

Section AnyRun.

Variables unknown Caller : Type.
Variable cfg : Config.
Variable sched : Schedule.

Lemma consumeToken_cases (polls : nat) :
  forall r : Run unknown Caller,
    consumeToken cfg sched polls r = (Pending, elapseN cfg sched polls r)
    \/ exists n, consumeToken cfg sched polls r
                 = (Fulfilled tt, grant (elapseN cfg sched n r)).
Proof.
  induction polls as [|polls IH]; intros r; cbn [consumeToken elapseN];
    destruct (mustWait (bucket r)).
  - left. reflexivity.
  - right. exists 0%nat. reflexivity.
  - destruct (IH (elapse cfg sched r)) as [H|(n & H)].
    + left. exact H.
    + right. exists (S n). exact H.
  - right. exists 0%nat. reflexivity.
Qed.

(** However long the run is observed, its trace is the sequential trace
    of some initial part of the queue, and its outcome is either still
    pending or the sequential outcome. *)
Lemma drainLoop_prefix (polls : nat)
  (onProgressUpdate : Z -> Z -> Caller -> Caller) (totalPromises : Z)
  (promiseFns : list (PromiseFn unknown)) :
  forall (results : list unknown) (completed : Z) (r : Run unknown Caller),
    let out := drainLoop cfg sched polls onProgressUpdate totalPromises
                 promiseFns results completed r in
    (fst out = Pending \/ fst out = sequentialOutcome results promiseFns)
    /\ exists k,
         trace (snd out)
         = trace r
           ++ sequentialTrace totalPromises completed (firstn k promiseFns)
         /\ caller (snd out)
            = applyCalls onProgressUpdate
                (progressCalls
                   (sequentialTrace totalPromises completed
                      (firstn k promiseFns)))
                (caller r).
Proof.
  induction promiseFns as [|fn rest IH]; intros results completed r.
  - cbn. split; [right; reflexivity|].
    exists 0%nat. cbn. rewrite app_nil_r. auto.
  - cbn [drainLoop sequentialOutcome].
    destruct (consumeToken_cases polls r) as [H|(n & H)]; rewrite H.
    + cbn [fst snd]. split; [left; reflexivity|].
      exists 0%nat. cbn [firstn sequentialTrace progressCalls].
      rewrite trace_elapseN, caller_elapseN, app_nil_r. auto.
    + set (r2 := elapseN cfg sched (latency fn)
                   (emit (Invoked fn) (grant (elapseN cfg sched n r)))).
      assert (Ht2 : trace r2 = trace r ++ [TokenConsumed; Invoked fn]).
      { unfold r2. rewrite trace_elapseN. cbn [emit grant trace].
        rewrite trace_elapseN, <- app_assoc. reflexivity. }
      assert (Hc2 : caller r2 = caller r).
      { unfold r2. rewrite caller_elapseN. cbn [emit grant caller].
        apply caller_elapseN. }
      destruct (settlement fn) as [v|reason|] eqn:Hsett.
      * set (r4 := progress onProgressUpdate (completed + 1)
                     (totalPromises - (completed + 1))
                     (emit (Recorded v) r2)).
        destruct (IH (results ++ [v]) (completed + 1)%Z r4)
          as (Ho & k & Ht & Hc).
        cbv zeta in Ho, Ht, Hc. cbv zeta. split; [exact Ho|].
        exists (S k). rewrite Ht, Hc. cbn [firstn sequentialTrace].
        rewrite Hsett. unfold r4. cbn [progress emit trace caller].
        rewrite Ht2, Hc2, <- !app_assoc. split; reflexivity.
      * cbn [fst snd]. split; [right; reflexivity|].
        exists 1%nat. cbn [firstn sequentialTrace]. rewrite Hsett.
        split; [exact Ht2 | exact Hc2].
      * cbn [fst snd]. split; [right; reflexivity|].
        exists 1%nat. cbn [firstn sequentialTrace]. rewrite Hsett.
        split; [exact Ht2 | exact Hc2].
Qed.

Lemma invoked_prefix (total : Z) (promiseFns : list (PromiseFn unknown)) :
  forall (k : nat) (completed : Z),
  exists m,
    invokedFns (sequentialTrace total completed (firstn k promiseFns))
    = firstn m promiseFns.
Proof.
  induction promiseFns as [|fn rest IH]; intros k completed.
  - exists 0%nat. destruct k; reflexivity.
  - destruct k as [|k]; [exists 0%nat; reflexivity|].
    cbn [firstn sequentialTrace].
    destruct (settlement fn).
    + destruct (IH k (completed + 1)%Z) as (m & Hm).
      exists (S m). cbn. rewrite Hm. reflexivity.
    + exists 1%nat. reflexivity.
    + exists 1%nat. reflexivity.
Qed.

Lemma invoked_up_to_rejection (total : Z)
  (pre post : list (PromiseFn unknown)) (fn : PromiseFn unknown)
  (reason : unknown) :
  settlement fn = Rejects reason ->
  forall (k : nat) (completed : Z),
  exists m,
    invokedFns
      (sequentialTrace total completed (firstn k (pre ++ fn :: post)))
    = firstn m (pre ++ [fn]).
Proof.
  intros Hfn.
  induction pre as [|p pre IH]; intros k completed.
  - destruct k as [|k]; [exists 0%nat; reflexivity|].
    cbn [app firstn sequentialTrace]. rewrite Hfn.
    exists 1%nat. reflexivity.
  - destruct k as [|k]; [exists 0%nat; reflexivity|].
    cbn [app firstn sequentialTrace].
    destruct (settlement p).
    + destruct (IH k (completed + 1)%Z) as (m & Hm).
      exists (S m). cbn. rewrite Hm. reflexivity.
    + exists 1%nat. reflexivity.
    + exists 1%nat. reflexivity.
Qed.

End AnyRun.

(** ** The drain *)

Section Drain.

Variables unknown Caller : Type.
Variable cfg : Config.
Variable sched : Schedule.

Implicit Types (promiseFns pre post : list (PromiseFn unknown)).
Implicit Types (onProgressUpdate : Z -> Z -> Caller -> Caller).
Implicit Types (st : RateLimitState) (c : Caller).

(** C1.  The empty queue resolves at once with no outcome, no token
    taken, no callback, nothing invoked.  In every run, however long it
    is observed, the producers invoked so far are an initial part of the
    queue in queue order, and none is invoked while an earlier one is
    awaited.  When both capacities are positive, the per-minute refill
    keeps coming and each of the N producers resolves, the drain returns
    the N results in queue order after invoking all N producers in queue
    order. *)
Theorem drain_in_input_order :
  (forall polls onProgressUpdate (r : Run unknown Caller),
     executePromisesWithRateLimit cfg sched polls [] onProgressUpdate r
     = (Fulfilled [], r))
  /\ (forall polls promiseFns onProgressUpdate st t c,
        let out := executePromisesWithRateLimit cfg sched polls promiseFns
                     onProgressUpdate (newRun st t c) in
        (exists m, invokedFns (trace (snd out)) = firstn m promiseFns)
        /\ noOverlap (trace (snd out)) = true)
  /\ (capacitiesPositive cfg ->
      minuteTicksRecur sched ->
      forall promiseFns vs onProgressUpdate st t c,
        Forall2 (@fulfils unknown) promiseFns vs ->
        exists polls0, forall polls, (polls0 <= polls)%nat ->
          let out := executePromisesWithRateLimit cfg sched polls
                       promiseFns onProgressUpdate (newRun st t c) in
          fst out = Fulfilled vs
          /\ List.length vs = List.length promiseFns
          /\ invokedFns (trace (snd out)) = promiseFns
          /\ recordedResults (trace (snd out)) = vs
          /\ noOverlap (trace (snd out)) = true).
Proof.
  split; [|split].
  - reflexivity.
  - intros polls promiseFns cb st t c. cbv zeta.
    unfold executePromisesWithRateLimit.
    destruct (drainLoop_prefix cfg sched polls cb
                (Z.of_nat (List.length promiseFns)) promiseFns [] 0%Z
                (newRun st t c)) as (_ & k & Ht & _).
    rewrite Ht. cbn [newRun trace app]. split.
    + apply invoked_prefix.
    + apply noOverlap_sequentialTrace.
  - intros Hcap Hfair promiseFns vs cb st t c Hall.
    destruct (drainLoop_sequential Hcap Hfair cb
                (Z.of_nat (List.length promiseFns)) promiseFns [] 0%Z
                (newRun st t c)) as (polls0 & Hrun).
    destruct (all_fulfil Hall) as (Hp & Ho & Hi).
    exists polls0. intros polls Hp0.
    destruct (Hrun polls Hp0) as (Hout & Ht & _).
    unfold executePromisesWithRateLimit. cbv zeta.
    rewrite Hout, Ht. cbn [newRun trace app].
    rewrite Ho, Hi, recorded_sequentialTrace, Hp. cbn [app].
    repeat split.
    + symmetry. apply (Forall2_length Hall).
    + apply noOverlap_sequentialTrace.
Qed.

(** C4.  In every run of a queue of length N, however long it is
    observed and whether or not a task fails, the progress callback has
    been called once per recorded outcome, with the arguments
    [(1, N - 1), (2, N - 2), ...] in this order: the first argument
    increases strictly and the two always add up to N; every call comes
    right after an outcome is recorded, and before the token of the next
    task is taken; the caller's state is the callback applied in that
    order.  When both capacities are positive, the per-minute refill
    keeps coming and each of the N producers resolves, the drain returns
    after exactly N calls, the last one with [(N, 0)]. *)
Theorem progress_once_per_completed_task :
  (forall polls promiseFns onProgressUpdate st t c,
     let out := executePromisesWithRateLimit cfg sched polls promiseFns
                  onProgressUpdate (newRun st t c) in
     let tr := trace (snd out) in
     let N := Z.of_nat (List.length promiseFns) in
     progressCalls tr = countUp N 0 (List.length (recordedResults tr))
     /\ Forall (fun call => (fst call + snd call)%Z = N) (progressCalls tr)
     /\ StronglySorted Z.lt (map fst (progressCalls tr))
     /\ progressFollowsRecord tr = true
     /\ progressBeforeNext tr = true
     /\ caller (snd out) = applyCalls onProgressUpdate (progressCalls tr) c)
  /\ (capacitiesPositive cfg ->
      minuteTicksRecur sched ->
      forall promiseFns vs onProgressUpdate st t c,
        Forall2 (@fulfils unknown) promiseFns vs ->
        exists polls0, forall polls, (polls0 <= polls)%nat ->
          let out := executePromisesWithRateLimit cfg sched polls
                       promiseFns onProgressUpdate (newRun st t c) in
          let tr := trace (snd out) in
          let N := Z.of_nat (List.length promiseFns) in
          fst out = Fulfilled vs
          /\ progressCalls tr = countUp N 0 (List.length promiseFns)
          /\ List.length (progressCalls tr) = List.length promiseFns
          /\ (promiseFns <> [] -> last (progressCalls tr) (0, 0)%Z
                                  = (N, 0%Z))).
Proof.
  split.
  - intros polls promiseFns cb st t c. cbv zeta.
    unfold executePromisesWithRateLimit.
    destruct (drainLoop_prefix cfg sched polls cb
                (Z.of_nat (List.length promiseFns)) promiseFns [] 0%Z
                (newRun st t c)) as (_ & k & Ht & Hc).
    rewrite Ht, Hc. cbn [newRun trace caller app].
    rewrite progress_sequentialTrace, recorded_sequentialTrace.
    repeat split.
    + apply countUp_sums.
    + apply countUp_increasing.
    + apply progressFollowsRecord_sequentialTrace.
    + apply progressBeforeNext_sequentialTrace.
  - intros Hcap Hfair promiseFns vs cb st t c Hall.
    destruct (drainLoop_sequential Hcap Hfair cb
                (Z.of_nat (List.length promiseFns)) promiseFns [] 0%Z
                (newRun st t c)) as (polls0 & Hrun).
    destruct (all_fulfil Hall) as (Hp & Ho & Hi).
    exists polls0. intros polls Hp0.
    destruct (Hrun polls Hp0) as (Hout & Ht & _).
    unfold executePromisesWithRateLimit. cbv zeta.
    rewrite Hout, Ht. cbn [newRun trace app].
    rewrite Ho, progress_sequentialTrace, Hp, length_countUp. cbn [app].
    rewrite (Forall2_length Hall).
    repeat split.
    intros Hne. rewrite countUp_last.
    + f_equal; lia.
    + rewrite <- (Forall2_length Hall).
      destruct promiseFns; [congruence | cbn; lia].
Qed.

(** C6.  Let a producer reject after a run of producers that resolve.
    However long the drain is observed it never fulfils, and no producer
    behind the failing one is ever invoked.  When both capacities are
    positive and the per-minute refill keeps coming, the drain rejects
    with the task's reason after invoking exactly the producers up to and
    including the failing one; the callback was called once for each task
    before it. *)
Theorem rejection_aborts_drain pre post vs (fn : PromiseFn unknown)
  (reason : unknown) :
  Forall2 (@fulfils unknown) pre vs ->
  settlement fn = Rejects reason ->
  (forall polls onProgressUpdate st t c,
     let out := executePromisesWithRateLimit cfg sched polls
                  (pre ++ fn :: post) onProgressUpdate (newRun st t c) in
     (fst out = Pending \/ fst out = Rejected reason)
     /\ exists m, invokedFns (trace (snd out)) = firstn m (pre ++ [fn]))
  /\ (capacitiesPositive cfg ->
      minuteTicksRecur sched ->
      forall onProgressUpdate st t c,
      exists polls0, forall polls, (polls0 <= polls)%nat ->
        let out := executePromisesWithRateLimit cfg sched polls
                     (pre ++ fn :: post) onProgressUpdate (newRun st t c) in
        fst out = Rejected reason
        /\ invokedFns (trace (snd out)) = pre ++ [fn]
        /\ recordedResults (trace (snd out)) = vs
        /\ List.length (progressCalls (trace (snd out))) = List.length pre).
Proof.
  intros Hpre Hfn.
  destruct (@first_rejection unknown pre post vs fn reason Hpre Hfn)
    as (Hp & Ho & Hi).
  split.
  - intros polls cb st t c. cbv zeta.
    unfold executePromisesWithRateLimit.
    destruct (drainLoop_prefix cfg sched polls cb
                (Z.of_nat (List.length (pre ++ fn :: post)))
                (pre ++ fn :: post) [] 0%Z (newRun st t c))
      as (Hout & k & Ht & _).
    rewrite Ho in Hout. split; [exact Hout|].
    rewrite Ht. cbn [newRun trace app].
    apply invoked_up_to_rejection with (reason := reason), Hfn.
  - intros Hcap Hfair cb st t c.
    destruct (drainLoop_sequential Hcap Hfair cb
                (Z.of_nat (List.length (pre ++ fn :: post)))
                (pre ++ fn :: post) [] 0%Z (newRun st t c))
      as (polls0 & Hrun).
    exists polls0. intros polls Hp0.
    destruct (Hrun polls Hp0) as (Hout & Ht & _).
    unfold executePromisesWithRateLimit. cbv zeta.
    rewrite Hout, Ht. cbn [newRun trace app].
    rewrite Ho, Hi, recorded_sequentialTrace, progress_sequentialTrace, Hp,
      length_countUp.
    repeat split. symmetry. apply (Forall2_length Hpre).
Qed.

(** C10.  [useRateLimit] never throws, with or without a provider above
    it.  Without one it returns the default context, whose
    [consumeToken] resolves at once and whose
    [executePromisesWithRateLimit] resolves at once with the empty array,
    whatever the queue: no producer is invoked, no callback is called,
    no token is taken. *)
Theorem useRateLimit_never_throws :
  (forall provider : option (RateLimitContextProps unknown Caller),
     useRateLimit cfg provider = Normal (useContext cfg provider)
     /\ forall e, useRateLimit cfg provider <> Throw e)
  /\ useRateLimit cfg None
     = Normal (JsObject (RateLimitContext unknown Caller cfg))
  /\ (forall polls (r : Run unknown Caller),
        ctx_consumeToken (RateLimitContext unknown Caller cfg) polls r
        = (Fulfilled tt, r))
  /\ (forall polls promiseFns onProgressUpdate (r : Run unknown Caller),
        ctx_executePromisesWithRateLimit
          (RateLimitContext unknown Caller cfg) polls promiseFns
          onProgressUpdate r
        = (Fulfilled [], r)).
Proof.
  repeat split.
  - destruct provider; reflexivity.
  - destruct provider; discriminate.
Qed.

End Drain.

(** ** The sample inputs, evaluated *)

Lemma steadySchedule_recurs : minuteTicksRecur steadySchedule.
Proof.
  intros k.
  set (j := (600 * (k / 600) + 599)%nat).
  exists j, (100 * Z.of_nat (S j))%Z. split.
  - pose proof (Nat.div_mod_eq k 600) as Hk.
    pose proof (Nat.mod_upper_bound k 600 ltac:(lia)) as Hm.
    unfold j. lia.
  - unfold steadySchedule. cbv zeta.
    assert (Hj : (S j mod 600 =? 0)%nat = true).
    { apply Nat.eqb_eq. unfold j.
      replace (S (600 * (k / 600) + 599)) with ((k / 600 + 1) * 600)%nat
        by lia.
      apply Nat.Div0.mod_mul. }
    rewrite Hj. apply in_or_app. right. apply in_or_app. right.
    left. reflexivity.
Qed.

Lemma smallConfig_positive : capacitiesPositive smallConfig.
Proof. split; vm_compute; reflexivity. Qed.

Lemma fiveTasks_fulfil :
  Forall2 (@fulfils Z) fiveTasks [0; 1; 2; 3; 4]%Z.
Proof. repeat constructor. Qed.

(** Five tasks under [perSecond = 2]: two tokens at once, two more after
    the refill at 1 s, the last after the refill at 2 s. *)
Example five_tasks_two_per_second :
  let out := executePromisesWithRateLimit smallConfig steadySchedule 20
               (map (fun i => {| latency := 0; settlement := Resolves i |})
                    [0; 1; 2; 3; 4]%Z)
               lastProgress (newRun (initialState smallConfig 0) 0 (0, 0)%Z) in
  fst out = Fulfilled [0; 1; 2; 3; 4]%Z
  /\ turn (snd out) = 20%nat
  /\ caller (snd out) = (5, 0)%Z
  /\ progressCalls (trace (snd out))
     = [(1, 4); (2, 3); (3, 2); (4, 1); (5, 0)]%Z.
Proof. vm_compute. repeat split. Qed.

(** Observed for too short a time, the same drain is still pending after
    two tasks. *)
Example five_tasks_cut_short :
  let out := executePromisesWithRateLimit smallConfig steadySchedule 5
               fiveTasks lastProgress
               (newRun (initialState smallConfig 0) 0 (0, 0)%Z) in
  fst out = Pending
  /\ invokedFns (trace (snd out)) = firstn 2 fiveTasks
  /\ caller (snd out) = (2, 3)%Z.
Proof. vm_compute. repeat split. Qed.

Example third_task_rejects :
  let out := executePromisesWithRateLimit smallConfig steadySchedule 20
               failingTasks lastProgress
               (newRun (initialState smallConfig 0) 0 (0, 0)%Z) in
  fst out = Rejected 7%Z
  /\ invokedFns (trace (snd out)) = firstn 3 failingTasks
  /\ caller (snd out) = (2, 3)%Z.
Proof. vm_compute. repeat split. Qed.

(** With a capacity of 0 no token is ever granted. *)
Example zero_capacity_never_grants :
  fst (consumeToken badConfig steadySchedule 700
         (newRun (unknown := Z) (initialState badConfig 0) 0 tt))
  = Pending.
Proof. vm_compute. reflexivity. Qed.

(** ** The theorems at the sample inputs *)

Lemma drain_in_input_order_witness :
  capacitiesPositive smallConfig
  /\ minuteTicksRecur steadySchedule
  /\ Forall2 (@fulfils Z) fiveTasks [0; 1; 2; 3; 4]%Z
  /\ exists polls0, forall polls, (polls0 <= polls)%nat ->
       let out := executePromisesWithRateLimit smallConfig steadySchedule
                    polls fiveTasks lastProgress
                    (newRun (initialState smallConfig 0) 0 (0, 0)%Z) in
       fst out = Fulfilled [0; 1; 2; 3; 4]%Z
       /\ List.length [0; 1; 2; 3; 4]%Z = List.length fiveTasks
       /\ invokedFns (trace (snd out)) = fiveTasks
       /\ recordedResults (trace (snd out)) = [0; 1; 2; 3; 4]%Z
       /\ noOverlap (trace (snd out)) = true.
Proof.
  split; [exact smallConfig_positive|].
  split; [exact steadySchedule_recurs|].
  split; [exact fiveTasks_fulfil|].
  exact (proj2 (proj2 (@drain_in_input_order Z (Z * Z) smallConfig
                         steadySchedule))
           smallConfig_positive steadySchedule_recurs
           fiveTasks [0; 1; 2; 3; 4]%Z lastProgress
           (initialState smallConfig 0) 0%nat (0, 0)%Z fiveTasks_fulfil).
Defined.

Lemma consumeToken_waits_then_takes_one_witness :
  let r := newRun (unknown := Z)
             (takeToken (takeToken (initialState smallConfig 0))) 0 tt in
  (forall polls, (polls < 10)%nat ->
     consumeToken smallConfig steadySchedule polls r
     = (Pending, elapseN smallConfig steadySchedule polls r))
  /\ (forall polls, (10 <= polls)%nat ->
        exists r',
          consumeToken smallConfig steadySchedule polls r = (Fulfilled tt, r')
          /\ tokensPerSecondRemainingRef (bucket r')
             = max (sub (tokensPerSecondRemainingRef
                           (bucket (elapseN smallConfig steadySchedule 10 r)))
                        (ofZ 1)) (ofZ 0)
          /\ tokensPerMinuteRemainingRef (bucket r')
             = max (sub (tokensPerMinuteRemainingRef
                           (bucket (elapseN smallConfig steadySchedule 10 r)))
                        (ofZ 1)) (ofZ 0)
          /\ turn r' = (10 + turn r)%nat)
  /\ (forall polls (r0 r' : Run Z unit),
        consumeToken smallConfig steadySchedule polls r0 = (Fulfilled tt, r') ->
        ~ negative (tokensPerSecondRemainingRef (bucket r'))
        /\ ~ negative (tokensPerMinuteRemainingRef (bucket r'))).
Proof.
  intros r.
  apply (@consumeToken_waits_then_takes_one Z unit smallConfig steadySchedule
           10 r).
  - intros i Hi.
    do 10 (destruct i as [|i]; [left; vm_compute; discriminate|]).
    lia.
  - vm_compute. reflexivity.
  - vm_compute. reflexivity.
Defined.

Lemma counters_within_bounds_witness :
  capacitiesNonnegative defaultConfig
  /\ withinBounds defaultConfig
       (performAll defaultConfig
          [AcquirePoll; Timer (PerSecondTick 1003); AcquirePoll;
           Timer (PerMinuteTick 60010); Timer (CountdownTick 60100)]
          (initialState defaultConfig 0)).
Proof.
  assert (Hcap : capacitiesNonnegative defaultConfig).
  { vm_compute. repeat split; discriminate. }
  split; [exact Hcap|].
  exact (proj1 (@counters_within_bounds defaultConfig 0
                  [AcquirePoll; Timer (PerSecondTick 1003); AcquirePoll;
                   Timer (PerMinuteTick 60010); Timer (CountdownTick 60100)]
                  Hcap)).
Defined.

Lemma progress_once_per_completed_task_witness :
  capacitiesPositive smallConfig
  /\ minuteTicksRecur steadySchedule
  /\ Forall2 (@fulfils Z) fiveTasks [0; 1; 2; 3; 4]%Z
  /\ exists polls0, forall polls, (polls0 <= polls)%nat ->
       let out := executePromisesWithRateLimit smallConfig steadySchedule
                    polls fiveTasks lastProgress
                    (newRun (initialState smallConfig 0) 0 (0, 0)%Z) in
       let tr := trace (snd out) in
       let N := Z.of_nat (List.length fiveTasks) in
       fst out = Fulfilled [0; 1; 2; 3; 4]%Z
       /\ progressCalls tr = countUp N 0 (List.length fiveTasks)
       /\ List.length (progressCalls tr) = List.length fiveTasks
       /\ (fiveTasks <> [] -> last (progressCalls tr) (0, 0)%Z = (N, 0%Z)).
Proof.
  split; [exact smallConfig_positive|].
  split; [exact steadySchedule_recurs|].
  split; [exact fiveTasks_fulfil|].
  exact (proj2 (@progress_once_per_completed_task Z (Z * Z) smallConfig
                  steadySchedule)
           smallConfig_positive steadySchedule_recurs
           fiveTasks [0; 1; 2; 3; 4]%Z lastProgress
           (initialState smallConfig 0) 0%nat (0, 0)%Z fiveTasks_fulfil).
Defined.

Lemma rejection_aborts_drain_witness :
  Forall2 (@fulfils Z) [indexTask 0; indexTask 1] [0; 1]%Z
  /\ settlement {| latency := 1; settlement := Rejects 7%Z |} = Rejects 7%Z
  /\ capacitiesPositive smallConfig
  /\ minuteTicksRecur steadySchedule
  /\ exists polls0, forall polls, (polls0 <= polls)%nat ->
       let out := executePromisesWithRateLimit smallConfig steadySchedule
                    polls failingTasks lastProgress
                    (newRun (initialState smallConfig 0) 0 (0, 0)%Z) in
       fst out = Rejected 7%Z
       /\ invokedFns (trace (snd out))
          = [indexTask 0; indexTask 1]
            ++ [{| latency := 1; settlement := Rejects 7%Z |}]
       /\ recordedResults (trace (snd out)) = [0; 1]%Z
       /\ List.length (progressCalls (trace (snd out))) = 2%nat.
Proof.
  assert (Hpre : Forall2 (@fulfils Z) [indexTask 0; indexTask 1] [0; 1]%Z)
    by (repeat constructor).
  split; [exact Hpre|].
  split; [reflexivity|].
  split; [exact smallConfig_positive|].
  split; [exact steadySchedule_recurs|].
  exact (proj2 (@rejection_aborts_drain Z (Z * Z) smallConfig steadySchedule
                  [indexTask 0; indexTask 1] [indexTask 3; indexTask 4]
                  [0; 1]%Z {| latency := 1; settlement := Rejects 7%Z |} 7%Z
                  Hpre eq_refl)
           smallConfig_positive steadySchedule_recurs
           lastProgress (initialState smallConfig 0) 0%nat (0, 0)%Z).
Defined.

(** * Further properties *)

(** ** The rate limit *)

Lemma atMost_positive (q : Q) (c : nat) :
  (0 < q)%Q -> atMost (Num q) c ->
  exists c', c = S c' /\ (q - 1 <= inject_Z (Z.of_nat c'))%Q.
Proof.
  cbn [atMost]. intros Hq Hc. destruct c as [|c'].
  - change (inject_Z (Z.of_nat 0)) with 0%Q in Hc. lra.
  - exists c'. split; [reflexivity|].
    rewrite Nat2Z.inj_succ in Hc. unfold Z.succ in Hc.
    rewrite inject_Z_plus in Hc. change (inject_Z 1) with 1%Q in Hc. lra.
Qed.

Lemma atMost_decrement (q : Q) (c : nat) :
  (q - 1 <= inject_Z (Z.of_nat c))%Q ->
  atMost (max (sub (Num q) (ofZ 1)) (ofZ 0)) c.
Proof.
  intros H. rewrite decrement_Num.
  destruct (Qle_bool (q - 1) 0); cbn [atMost]; [|exact H].
  change 0%Q with (inject_Z 0). rewrite <- Zle_Qle. lia.
Qed.

Lemma le_0_false_positive (q : Q) :
  le (Num q) (ofZ 0) = false -> (0 < q)%Q.
Proof.
  intros H. destruct (Qlt_le_dec 0 q) as [Hlt|Hle]; [exact Hlt|].
  assert (Ht : le (Num q) (ofZ 0) = true) by (apply le_0_true; exact Hle).
  congruence.
Qed.

(** One of the two windows: its counter, its capacity, the callbacks that
    refill it. *)
Section Window.

Variable cfg : Config.
Variable counter : RateLimitState -> number.
Variable capacity : number.
Variable isRefill : TimerEvent -> bool.
Variable C : nat.

Hypothesis take_lowers :
  forall st c, mustWait st = false -> atMost (counter st) c ->
               exists c', c = S c' /\ atMost (counter (takeToken st)) c'.
Hypothesis refill_sets :
  forall st e, isRefill e = true -> counter (fire cfg st e) = capacity.
Hypothesis other_keeps :
  forall st e, isRefill e = false -> counter (fire cfg st e) = counter st.
Hypothesis capacity_atMost : atMost capacity C.

Lemma fireAll_budget (es : list TimerEvent) :
  forall st c, atMost (counter st) c ->
    exists c', atMost (counter (fireAll cfg es st)) c'
               /\ (c' <= c + C * countRefills isRefill es)%nat.
Proof.
  unfold fireAll, countRefills.
  induction es as [|e es IH]; intros st c Hc; cbn [fold_left filter].
  - exists c. split; [exact Hc | cbn; lia].
  - destruct (isRefill e) eqn:E.
    + destruct (IH (fire cfg st e) C) as (c' & Hc' & Hle).
      { rewrite refill_sets by exact E. exact capacity_atMost. }
      exists c'. split; [exact Hc'|]. cbn [List.length]. lia.
    + destruct (IH (fire cfg st e) c) as (c' & Hc' & Hle).
      { rewrite other_keeps by exact E. exact Hc. }
      exists c'. split; [exact Hc' | exact Hle].
Qed.

(** Along an interleaving the tokens taken are at most the bound on the
    counter at the start plus [C] for each refill. *)
Lemma tokensGranted_budget (actions : list Action) :
  forall st c, atMost (counter st) c ->
    (tokensGranted cfg actions st
     <= c + C * actionRefills isRefill actions)%nat.
Proof.
  induction actions as [|a rest IH]; intros st c Hc;
    cbn [tokensGranted actionRefills]; [lia|].
  destruct a as [|e]; cbn [perform].
  - destruct (mustWait st) eqn:E.
    + specialize (IH st c Hc). lia.
    + destruct (@take_lowers _ _ E Hc) as (c' & -> & Hc').
      specialize (IH _ _ Hc'). lia.
  - destruct (isRefill e) eqn:E.
    + assert (H : atMost (counter (fire cfg st e)) C)
        by (rewrite refill_sets by exact E; exact capacity_atMost).
      specialize (IH _ _ H). lia.
    + assert (H : atMost (counter (fire cfg st e)) c)
        by (rewrite other_keeps by exact E; exact Hc).
      specialize (IH _ _ H). lia.
Qed.

Section WindowRun.

Variables unknown Caller : Type.
Variable sched : Schedule.

Lemma elapse_budget (r : Run unknown Caller) (c : nat) :
  atMost (counter (bucket r)) c ->
  exists c',
    atMost (counter (bucket (elapse cfg sched r))) c'
    /\ (c' + C * refillsBefore isRefill sched (turn r)
        <= c + C * refillsBefore isRefill sched (turn (elapse cfg sched r)))%nat.
Proof.
  intros Hc. cbn [elapse bucket turn refillsBefore].
  destruct (@fireAll_budget (sched (turn r)) _ _ Hc) as (c' & Hc' & Hle).
  exists c'. split; [exact Hc' | lia].
Qed.

Lemma elapseN_budget (n : nat) :
  forall (r : Run unknown Caller) (c : nat),
    atMost (counter (bucket r)) c ->
    exists c',
      atMost (counter (bucket (elapseN cfg sched n r))) c'
      /\ (c' + C * refillsBefore isRefill sched (turn r)
          <= c + C * refillsBefore isRefill sched
                       (turn (elapseN cfg sched n r)))%nat.
Proof.
  induction n as [|n IH]; intros r c Hc; cbn [elapseN].
  - exists c. split; [exact Hc | lia].
  - destruct (@elapse_budget r _ Hc) as (c1 & Hc1 & H1).
    destruct (IH _ _ Hc1) as (c' & Hc' & H2).
    exists c'. split; [exact Hc' | lia].
Qed.

Lemma tokensConsumed_app (tr1 tr2 : list (TraceEvent unknown)) :
  tokensConsumed (tr1 ++ tr2)
  = (tokensConsumed tr1 + tokensConsumed tr2)%nat.
Proof.
  induction tr1 as [|e tr1 IH]; [reflexivity|].
  destruct e; cbn [app tokensConsumed]; rewrite IH; reflexivity.
Qed.

Lemma consumeToken_budget (polls : nat) :
  forall (r : Run unknown Caller) (c : nat),
    atMost (counter (bucket r)) c ->
    let r' := snd (consumeToken cfg sched polls r) in
    exists c',
      atMost (counter (bucket r')) c'
      /\ (tokensConsumed (trace r') + c'
          + C * refillsBefore isRefill sched (turn r)
          <= tokensConsumed (trace r) + c
             + C * refillsBefore isRefill sched (turn r'))%nat.
Proof.
  assert (Hgrant : forall (r : Run unknown Caller) c,
            mustWait (bucket r) = false -> atMost (counter (bucket r)) c ->
            exists c',
              atMost (counter (bucket (grant r))) c'
              /\ (tokensConsumed (trace (grant r)) + c'
                  + C * refillsBefore isRefill sched (turn r)
                  <= tokensConsumed (trace r) + c
                     + C * refillsBefore isRefill sched (turn (grant r)))%nat).
  { intros r c E Hc. destruct (@take_lowers _ _ E Hc) as (c' & -> & Hc').
    exists c'. split; [exact Hc'|].
    cbn [grant trace turn]. rewrite tokensConsumed_app. cbn. lia. }
  induction polls as [|polls IH]; intros r c Hc; cbn [consumeToken];
    destruct (mustWait (bucket r)) eqn:E; cbn [snd]; cbv zeta.
  - exists c. split; [exact Hc | lia].
  - apply Hgrant; assumption.
  - destruct (@elapse_budget r _ Hc) as (c1 & Hc1 & H1).
    destruct (IH _ _ Hc1) as (c' & Hc' & H2). cbv zeta in H2.
    exists c'. split; [exact Hc'|].
    cbn [elapse trace] in H2. lia.
  - apply Hgrant; assumption.
Qed.

Lemma drainLoop_budget (polls : nat)
  (onProgressUpdate : Z -> Z -> Caller -> Caller) (total : Z)
  (promiseFns : list (PromiseFn unknown)) :
  forall (results : list unknown) (completed : Z) (r : Run unknown Caller)
         (c : nat),
    atMost (counter (bucket r)) c ->
    let r' := snd (drainLoop cfg sched polls onProgressUpdate total promiseFns
                     results completed r) in
    exists c',
      atMost (counter (bucket r')) c'
      /\ (tokensConsumed (trace r') + c'
          + C * refillsBefore isRefill sched (turn r)
          <= tokensConsumed (trace r) + c
             + C * refillsBefore isRefill sched (turn r'))%nat.
Proof.
  induction promiseFns as [|fn rest IH]; intros results completed r c Hc;
    cbn [drainLoop]; cbv zeta.
  - exists c. split; [exact Hc | cbn; lia].
  - destruct (@consumeToken_budget polls r _ Hc) as (c1 & Hc1 & H1).
    cbv zeta in H1.
    destruct (consumeToken cfg sched polls r) as [[[]|reason|] r1];
      cbn [snd] in *; try (exists c1; split; [exact Hc1 | exact H1]).
    set (r2 := elapseN cfg sched (latency fn) (emit (Invoked fn) r1)).
    destruct (@elapseN_budget (latency fn) (emit (Invoked fn) r1) c1 Hc1)
      as (c2 & Hc2 & H2).
    fold r2 in Hc2, H2. cbn [emit turn] in H2.
    assert (Ht2 : tokensConsumed (trace r2) = tokensConsumed (trace r1)).
    { unfold r2. rewrite trace_elapseN. cbn [emit trace].
      rewrite tokensConsumed_app. cbn. lia. }
    destruct (settlement fn) as [v|reason|];
      try (exists c2; split; [exact Hc2 | cbn [snd]; lia]).
    set (r4 := progress onProgressUpdate (completed + 1)
                 (total - (completed + 1)) (emit (Recorded v) r2)).
    destruct (IH (results ++ [v]) (completed + 1)%Z r4 c2 Hc2)
      as (c' & Hc' & H4).
    cbv zeta in H4. exists c'. split; [exact Hc'|].
    assert (Ht4 : tokensConsumed (trace r4) = tokensConsumed (trace r2)).
    { unfold r4. cbn [progress emit trace].
      rewrite !tokensConsumed_app. cbn. lia. }
    change (turn r4) with (turn r2) in H4. lia.
Qed.

End WindowRun.

End Window.

Lemma second_take_lowers (st : RateLimitState) (c : nat) :
  mustWait st = false -> atMost (tokensPerSecondRemainingRef st) c ->
  exists c', c = S c'
             /\ atMost (tokensPerSecondRemainingRef (takeToken st)) c'.
Proof.
  unfold mustWait. intros E Hc. apply orb_false_iff in E as [Es _].
  destruct (tokensPerSecondRemainingRef st) as [q|] eqn:Eq; [|contradiction].
  destruct (@atMost_positive q c (@le_0_false_positive q Es) Hc)
    as (c' & -> & Hq).
  exists c'. split; [reflexivity|].
  cbn [takeToken tokensPerSecondRemainingRef]. rewrite Eq.
  apply atMost_decrement, Hq.
Qed.

Lemma minute_take_lowers (st : RateLimitState) (c : nat) :
  mustWait st = false -> atMost (tokensPerMinuteRemainingRef st) c ->
  exists c', c = S c'
             /\ atMost (tokensPerMinuteRemainingRef (takeToken st)) c'.
Proof.
  unfold mustWait. intros E Hc. apply orb_false_iff in E as [_ Em].
  destruct (tokensPerMinuteRemainingRef st) as [q|] eqn:Eq; [|contradiction].
  destruct (@atMost_positive q c (@le_0_false_positive q Em) Hc)
    as (c' & -> & Hq).
  exists c'. split; [reflexivity|].
  cbn [takeToken tokensPerMinuteRemainingRef]. rewrite Eq.
  apply atMost_decrement, Hq.
Qed.

Lemma second_refill_sets (cfg : Config) (st : RateLimitState)
  (e : TimerEvent) :
  isSecondRefill e = true ->
  tokensPerSecondRemainingRef (fire cfg st e) = adjustedMaxTokensPerSecond cfg.
Proof. destruct e; [discriminate | reflexivity | reflexivity]. Qed.

Lemma second_other_keeps (cfg : Config) (st : RateLimitState)
  (e : TimerEvent) :
  isSecondRefill e = false ->
  tokensPerSecondRemainingRef (fire cfg st e) = tokensPerSecondRemainingRef st.
Proof. destruct e; [reflexivity | discriminate | discriminate]. Qed.

Lemma minute_refill_sets (cfg : Config) (st : RateLimitState)
  (e : TimerEvent) :
  isMinuteRefill e = true ->
  tokensPerMinuteRemainingRef (fire cfg st e) = adjustedMaxTokensPerMinute cfg.
Proof. destruct e; [discriminate | discriminate | reflexivity]. Qed.

Lemma minute_other_keeps (cfg : Config) (st : RateLimitState)
  (e : TimerEvent) :
  isMinuteRefill e = false ->
  tokensPerMinuteRemainingRef (fire cfg st e) = tokensPerMinuteRemainingRef st.
Proof. destruct e; [reflexivity | reflexivity | discriminate]. Qed.

Lemma atMost_between0 (a cap : number) (C : nat) :
  between0 a cap -> atMost cap C -> atMost a C.
Proof.
  destruct a as [x|], cap as [y|]; cbn [between0 atMost]; try tauto.
  intros [_ Hxy] Hy. lra.
Qed.

Lemma budget_bound (tokens c' C before after : nat) :
  (tokens + c' + C * before <= 0 + C + C * after)%nat ->
  (tokens <= C * (1 + (after - before)))%nat.
Proof.
  intros H. destruct (Nat.le_gt_cases before after) as [Hle|Hgt].
  - replace after with (before + (after - before))%nat in H at 1 by lia.
    rewrite Nat.mul_add_distr_l in H. lia.
  - assert (C * after <= C * before)%nat by (apply Nat.mul_le_mono_l; lia).
    replace (after - before)%nat with 0%nat by lia. lia.
Qed.

Lemma budget_bound_actions (tokens C refills : nat) :
  (tokens <= C + C * refills)%nat -> (tokens <= C * (1 + refills))%nat.
Proof. lia. Qed.

(** In a sequential trace every invocation has taken exactly one token. *)
Lemma tokens_sequentialTrace (unknown : Type) (total : Z)
  (promiseFns : list (PromiseFn unknown)) :
  forall completed,
    tokensConsumed (sequentialTrace total completed promiseFns)
    = List.length (invokedFns (sequentialTrace total completed promiseFns))
    /\ tokenThenInvoke (sequentialTrace total completed promiseFns) = true.
Proof.
  induction promiseFns as [|fn rest IH]; intros completed;
    cbn [sequentialTrace].
  - split; reflexivity.
  - destruct (settlement fn); [|split; reflexivity..].
    destruct (IH (completed + 1)%Z) as (Hn & Hb).
    cbn. rewrite Hn. split; [reflexivity | exact Hb].
Qed.

Section RateLimit.

Variables unknown Caller : Type.
Variable cfg : Config.
Variable sched : Schedule.

Lemma drain_tokens_invoked (polls : nat)
  (promiseFns : list (PromiseFn unknown))
  (onProgressUpdate : Z -> Z -> Caller -> Caller) (r : Run unknown Caller) :
  trace r = [] ->
  let out := executePromisesWithRateLimit cfg sched polls promiseFns
               onProgressUpdate r in
  tokensConsumed (trace (snd out))
  = List.length (invokedFns (trace (snd out)))
  /\ tokenThenInvoke (trace (snd out)) = true.
Proof.
  intros Hr. cbv zeta. unfold executePromisesWithRateLimit.
  destruct (drainLoop_prefix cfg sched polls onProgressUpdate
              (Z.of_nat (List.length promiseFns)) promiseFns [] 0%Z r)
    as (_ & k & Ht & _).
  rewrite Ht, Hr. cbn [app]. apply tokens_sequentialTrace.
Qed.

(** However long a drain is observed, each producer it has invoked has
    taken exactly one token, right before the invocation. *)
Theorem one_token_per_invocation (polls : nat)
  (promiseFns : list (PromiseFn unknown))
  (onProgressUpdate : Z -> Z -> Caller -> Caller) (st : RateLimitState)
  (t : nat) (c : Caller) :
  let out := executePromisesWithRateLimit cfg sched polls promiseFns
               onProgressUpdate (newRun st t c) in
  tokensConsumed (trace (snd out))
  = List.length (invokedFns (trace (snd out)))
  /\ tokenThenInvoke (trace (snd out)) = true.
Proof.
  apply drain_tokens_invoked. reflexivity.
Qed.


End RateLimit.


(** ** What the display shows *)

Lemma mirror_perform (cfg : Config) (st : RateLimitState) (a : Action) :
  tokensPerSecondRemaining st = tokensPerSecondRemainingRef st ->
  tokensPerMinuteRemaining st = tokensPerMinuteRemainingRef st ->
  tokensPerSecondRemaining (perform cfg st a)
  = tokensPerSecondRemainingRef (perform cfg st a)
  /\ tokensPerMinuteRemaining (perform cfg st a)
     = tokensPerMinuteRemainingRef (perform cfg st a).
Proof.
  intros Hs Hm. destruct a as [|[now|now|now]]; cbn [perform fire].
  - destruct (mustWait st); [auto | split; reflexivity].
  - cbn. auto.
  - cbn. auto.
  - cbn. auto.
Qed.


(** ** The counters during a drain *)

Section DrainBounds.

Variables unknown Caller : Type.
Variable cfg : Config.
Variable sched : Schedule.

Lemma withinBounds_fireAll (es : list TimerEvent) :
  forall st, withinBounds cfg st -> withinBounds cfg (fireAll cfg es st).
Proof.
  unfold fireAll. induction es as [|e es IH]; intros st H; cbn [fold_left].
  - exact H.
  - apply IH, withinBounds_fire, H.
Qed.

Lemma withinBounds_elapseN (n : nat) :
  forall r : Run unknown Caller,
    withinBounds cfg (bucket r) ->
    withinBounds cfg (bucket (elapseN cfg sched n r)).
Proof.
  induction n as [|n IH]; intros r H; cbn [elapseN].
  - exact H.
  - apply IH. cbn [elapse bucket]. apply withinBounds_fireAll, H.
Qed.

Lemma withinBounds_consumeToken (polls : nat) :
  forall r : Run unknown Caller,
    withinBounds cfg (bucket r) ->
    withinBounds cfg (bucket (snd (consumeToken cfg sched polls r))).
Proof.
  intros r H.
  destruct (consumeToken_cases cfg sched polls r) as [E|(n & E)]; rewrite E;
    cbn [snd].
  - apply withinBounds_elapseN, H.
  - cbn [grant bucket]. apply withinBounds_takeToken, withinBounds_elapseN, H.
Qed.

(** A drain that starts with both counters within their bounds leaves them
    within their bounds, however long it is observed, whatever the timers
    do meanwhile and however the tasks settle. *)
Theorem drain_keeps_counters_within_bounds (polls : nat)
  (promiseFns : list (PromiseFn unknown))
  (onProgressUpdate : Z -> Z -> Caller -> Caller) (r : Run unknown Caller) :
  withinBounds cfg (bucket r) ->
  withinBounds cfg
    (bucket (snd (executePromisesWithRateLimit cfg sched polls promiseFns
                    onProgressUpdate r))).
Proof.
  unfold executePromisesWithRateLimit.
  generalize (Z.of_nat (List.length promiseFns)) as total.
  generalize (@nil unknown) as results. generalize 0%Z as completed.
  revert r.
  induction promiseFns as [|fn rest IH];
    intros r completed results total H; cbn [drainLoop].
  - exact H.
  - pose proof (withinBounds_consumeToken polls r H) as H1.
    destruct (consumeToken cfg sched polls r) as [[[]|reason|] r1];
      cbn [snd] in *; try exact H1.
    assert (H2 : withinBounds cfg
                   (bucket (elapseN cfg sched (latency fn)
                              (emit (Invoked fn) r1))))
      by (apply withinBounds_elapseN; exact H1).
    destruct (settlement fn); cbn [snd]; try exact H2.
    apply IH. exact H2.
Qed.

End DrainBounds.

(** ** Capacities that are not positive, capacities that are not numbers *)

Section Starved.

Variables unknown Caller : Type.
Variable cfg : Config.
Variable sched : Schedule.
Lemma starved_fireAll (es : list TimerEvent) :
  forall st, starved cfg st -> starved cfg (fireAll cfg es st).
Proof.
  unfold fireAll. induction es as [|e es IH]; intros st H; cbn [fold_left].
  - exact H.
  - apply IH. unfold starved in *.
    destruct H as [[Hc Hs]|[Hc Hm]]; [left | right];
      (split; [exact Hc|]); destruct e; cbn; assumption.
Qed.

Lemma starved_elapseN (n : nat) :
  forall r : Run unknown Caller,
    starved cfg (bucket r) -> starved cfg (bucket (elapseN cfg sched n r)).
Proof.
  induction n as [|n IH]; intros r H; cbn [elapseN].
  - exact H.
  - apply IH. cbn [elapse bucket]. apply starved_fireAll, H.
Qed.

Lemma starved_mustWait (st : RateLimitState) :
  starved cfg st -> mustWait st = true.
Proof.
  intros H. apply mustWait_true_iff. destruct H as [[_ Hs]|[_ Hm]]; auto.
Qed.

Lemma starved_consumeToken (polls : nat) (r : Run unknown Caller) :
  starved cfg (bucket r) ->
  consumeToken cfg sched polls r = (Pending, elapseN cfg sched polls r).
Proof.
  intros H. apply consumeToken_waits with (n := S polls); [|lia].
  intros i _. apply starved_mustWait, starved_elapseN, H.
Qed.

End Starved.

(** When the capacity of one window is not positive (a buffer of 100
    percent or more, a rate of 0 or less), a drain of a queue that is not
    empty never gets a token: however long it is observed and whatever the
    timers do, it is still pending, no producer was invoked, no outcome
    recorded and the callback was never called. *)
Theorem no_token_without_capacity (unknown Caller : Type) (cfg : Config)
  (sched : Schedule) (polls : nat) (fn : PromiseFn unknown)
  (rest : list (PromiseFn unknown))
  (onProgressUpdate : Z -> Z -> Caller -> Caller) (now : Z) (t : nat)
  (c : Caller) :
  nonpositive (adjustedMaxTokensPerSecond cfg)
  \/ nonpositive (adjustedMaxTokensPerMinute cfg) ->
  let out := executePromisesWithRateLimit cfg sched polls (fn :: rest)
               onProgressUpdate (newRun (initialState cfg now) t c) in
  fst out = Pending
  /\ trace (snd out) = []
  /\ caller (snd out) = c
  /\ turn (snd out) = (polls + t)%nat.
Proof.
  intros Hcap. cbv zeta.
  assert (H0 : starved cfg (bucket (newRun (unknown := unknown)
                                      (initialState cfg now) t c))).
  { unfold starved. cbn. tauto. }
  unfold executePromisesWithRateLimit. cbn [drainLoop].
  rewrite (starved_consumeToken sched polls _ H0). cbn [fst snd].
  rewrite trace_elapseN, caller_elapseN, turn_elapseN. auto.
Qed.

Lemma no_token_without_capacity_witness :
  nonpositive (adjustedMaxTokensPerSecond fullBufferConfig)
  /\ let out := executePromisesWithRateLimit fullBufferConfig steadySchedule
                  1000 fiveTasks lastProgress
                  (newRun (initialState fullBufferConfig 0) 0 (0, 0)%Z) in
     fst out = Pending
     /\ trace (snd out) = []
     /\ caller (snd out) = (0, 0)%Z
     /\ turn (snd out) = (1000 + 0)%nat.
Proof.
  assert (H : nonpositive (adjustedMaxTokensPerSecond fullBufferConfig)).
  { vm_compute. discriminate. }
  split; [exact H|].
  exact (@no_token_without_capacity Z (Z * Z) fullBufferConfig steadySchedule
           1000 (indexTask 0) (map indexTask [1; 2; 3; 4]%Z) lastProgress
           0%Z 0%nat (0, 0)%Z (or_introl H)).
Defined.

Section Unlimited.

Variables unknown Caller : Type.
Variable cfg : Config.
Variable sched : Schedule.
Hypothesis HcapS : adjustedMaxTokensPerSecond cfg = NaN.
Hypothesis HcapM : adjustedMaxTokensPerMinute cfg = NaN.

Lemma unlimited_fireAll (es : list TimerEvent) :
  forall st, unlimited st -> unlimited (fireAll cfg es st).
Proof.
  unfold fireAll. induction es as [|e es IH]; intros st H; cbn [fold_left].
  - exact H.
  - apply IH. destruct H as [Hs Hm]. unfold unlimited.
    destruct e; cbn; rewrite ?HcapS, ?HcapM; auto.
Qed.

Lemma unlimited_elapseN (n : nat) :
  forall r : Run unknown Caller,
    unlimited (bucket r) -> unlimited (bucket (elapseN cfg sched n r)).
Proof.
  induction n as [|n IH]; intros r H; cbn [elapseN].
  - exact H.
  - apply IH. cbn [elapse bucket]. apply unlimited_fireAll, H.
Qed.

Lemma unlimited_consumeToken (polls : nat) (r : Run unknown Caller) :
  unlimited (bucket r) ->
  consumeToken cfg sched polls r = (Fulfilled tt, grant r)
  /\ unlimited (bucket (grant r)).
Proof.
  intros [Hs Hm].
  assert (E : mustWait (bucket r) = false)
    by (unfold mustWait; rewrite Hs, Hm; reflexivity).
  split.
  - destruct polls; cbn [consumeToken]; rewrite E; reflexivity.
  - unfold unlimited. cbn. rewrite Hs, Hm. auto.
Qed.

Lemma drainLoop_unlimited (polls : nat)
  (onProgressUpdate : Z -> Z -> Caller -> Caller) (total : Z)
  (promiseFns : list (PromiseFn unknown)) (vs : list unknown) :
  Forall2 (@fulfils unknown) promiseFns vs ->
  forall (results : list unknown) (completed : Z) (r : Run unknown Caller),
    unlimited (bucket r) ->
    let out := drainLoop cfg sched polls onProgressUpdate total promiseFns
                 results completed r in
    fst out = Fulfilled (results ++ vs)
    /\ unlimited (bucket (snd out))
    /\ turn (snd out) = (turn r + list_sum (map (@latency unknown) promiseFns))%nat.
Proof.
  induction 1 as [|fn v rest vs' Hfn _ IH]; intros results completed r Hr;
    cbn [drainLoop map list_sum]; cbv zeta.
  - rewrite app_nil_r. cbn. auto.
  - destruct (unlimited_consumeToken polls r Hr) as (-> & Hg).
    unfold fulfils in Hfn. rewrite Hfn.
    set (r2 := elapseN cfg sched (latency fn) (emit (Invoked fn) (grant r))).
    assert (H2 : unlimited (bucket r2))
      by (apply unlimited_elapseN; exact Hg).
    set (r4 := progress onProgressUpdate (completed + 1)
                 (total - (completed + 1)) (emit (Recorded v) r2)).
    destruct (IH (results ++ [v]) (completed + 1)%Z r4 H2) as (Ho & Hu & Ht).
    cbv zeta in Ho, Hu, Ht. rewrite Ho, Ht, <- app_assoc.
    split; [reflexivity|]. split; [exact Hu|].
    change (turn r4) with (turn r2). unfold r2.
    rewrite turn_elapseN. cbn [emit grant turn].
    change (list_sum (latency fn :: map (@latency unknown) rest))
      with (latency fn + list_sum (map (@latency unknown) rest))%nat.
    lia.
Qed.

End Unlimited.

(** When both capacities are [NaN] (a buffer or a rate that is not a
    number), the limiter limits nothing: for every schedule and without a
    single sleep, a queue of producers that resolve is drained in exactly
    the turns the tasks themselves take, and both counters are still
    [NaN]. *)
Theorem nan_capacity_never_waits (unknown Caller : Type) (cfg : Config)
  (sched : Schedule) (polls : nat) (promiseFns : list (PromiseFn unknown))
  (vs : list unknown) (onProgressUpdate : Z -> Z -> Caller -> Caller)
  (now : Z) (t : nat) (c : Caller) :
  adjustedMaxTokensPerSecond cfg = NaN ->
  adjustedMaxTokensPerMinute cfg = NaN ->
  Forall2 (@fulfils unknown) promiseFns vs ->
  let out := executePromisesWithRateLimit cfg sched polls promiseFns
               onProgressUpdate (newRun (initialState cfg now) t c) in
  fst out = Fulfilled vs
  /\ turn (snd out)
     = (t + list_sum (map (@latency unknown) promiseFns))%nat
  /\ unlimited (bucket (snd out)).
Proof.
  intros HS HM Hall. cbv zeta. unfold executePromisesWithRateLimit.
  destruct (@drainLoop_unlimited unknown Caller cfg sched HS HM polls
              onProgressUpdate (Z.of_nat (List.length promiseFns))
              promiseFns vs Hall [] 0%Z (newRun (initialState cfg now) t c))
    as (Ho & Hu & Ht).
  { unfold unlimited. cbn. auto. }
  cbv zeta in Ho, Hu, Ht. rewrite Ho, Ht. cbn [app newRun turn]. auto.
Qed.

Lemma nan_capacity_never_waits_witness :
  adjustedMaxTokensPerSecond nanBufferConfig = NaN
  /\ adjustedMaxTokensPerMinute nanBufferConfig = NaN
  /\ let out := executePromisesWithRateLimit nanBufferConfig steadySchedule
                  0 fiveTasks lastProgress
                  (newRun (initialState nanBufferConfig 0) 0 (0, 0)%Z) in
     fst out = Fulfilled [0; 1; 2; 3; 4]%Z
     /\ turn (snd out) = (0 + list_sum (map (@latency Z) fiveTasks))%nat
     /\ unlimited (bucket (snd out)).
Proof.
  split; [reflexivity|]. split; [reflexivity|].
  exact (@nan_capacity_never_waits Z (Z * Z) nanBufferConfig steadySchedule
           0 fiveTasks [0; 1; 2; 3; 4]%Z lastProgress 0%Z 0%nat (0, 0)%Z
           eq_refl eq_refl fiveTasks_fulfil).
Defined.

(** ** Countdowns *)

Lemma countdown_range (z k : Z) :
  (z <= 1000 * k)%Z -> (0 <= k)%Z ->
  inRange (max (div (ofZ z) (ofZ 1000)) (ofZ 0)) k.
Proof.
  intros Hz Hk.
  assert (Hk' : (0 <= inject_Z k)%Q).
  { change 0%Q with (inject_Z 0). rewrite <- Zle_Qle. exact Hk. }
  unfold ofZ, div. change (Qeq_bool (inject_Z 1000) 0) with false.
  cbv iota. unfold max. change (inject_Z 0) with 0%Q.
  destruct (Qle_bool (inject_Z z / inject_Z 1000) 0) eqn:E; cbn [inRange].
  - split; [lra | exact Hk'].
  - split.
    + destruct (Qlt_le_dec (inject_Z z / inject_Z 1000) 0) as [Hlt|Hge];
        [|exact Hge].
      assert (Hle : (inject_Z z / inject_Z 1000 <= 0)%Q) by lra.
      apply Qle_bool_iff in Hle. congruence.
    + apply Qle_shift_div_r.
      * reflexivity.
      * rewrite <- inject_Z_mult, <- Zle_Qle. lia.
Qed.

Lemma scheduledWithin_perform (cfg : Config) (st : RateLimitState)
  (last : Z) (a : Action) :
  scheduledWithin st last ->
  match a with
  | AcquirePoll => scheduledWithin (perform cfg st a) last
  | Timer e =>
      (last <= clockOf e)%Z -> scheduledWithin (perform cfg st a) (clockOf e)
  end.
Proof.
  intros (Hs & Hm & Rs & Rm). destruct a as [|[now|now|now]];
    cbn [perform fire clockOf].
  - destruct (mustWait st); unfold scheduledWithin; cbn; auto.
  - intros Hle. unfold scheduledWithin. cbn.
    repeat split; try lia; apply countdown_range; lia.
  - intros Hle. unfold scheduledWithin. cbn. repeat split; try lia; assumption.
  - intros Hle. unfold scheduledWithin. cbn. repeat split; try lia; assumption.
Qed.

Lemma scheduledWithin_performAll (cfg : Config) (actions : list Action) :
  forall st last,
    scheduledWithin st last -> clockMonotone last actions ->
    exists last', scheduledWithin (performAll cfg actions st) last'.
Proof.
  unfold performAll.
  induction actions as [|a rest IH]; intros st last H Hmono;
    cbn [fold_left clockMonotone] in *.
  - exists last. exact H.
  - pose proof (scheduledWithin_perform cfg a H) as Hstep.
    destruct a as [|e].
    + apply (IH _ last); assumption.
    + destruct Hmono as [Hle Hrest].
      apply (IH _ (clockOf e)); [apply Hstep, Hle | exact Hrest].
Qed.

(** When the clock readings of the timer callbacks never go back, then
    under every interleaving after the first render the displayed
    countdown to the per-second refill lies between 0 and 1 second and the
    one to the per-minute refill between 0 and 60 seconds. *)
Theorem countdowns_within_window (cfg : Config) (now : Z)
  (actions : list Action) :
  clockMonotone now actions ->
  let st := performAll cfg actions (initialState cfg now) in
  inRange (perSecondCountdown st) 1 /\ inRange (perMinuteCountdown st) 60.
Proof.
  intros Hmono. cbv zeta.
  destruct (@scheduledWithin_performAll cfg actions (initialState cfg now) now)
    as (last' & _ & _ & Hs & Hm).
  - unfold scheduledWithin. cbn. repeat split; try lia; discriminate.
  - exact Hmono.
  - split; assumption.
Qed.

Lemma countdowns_within_window_witness :
  let actions :=
    [Timer (CountdownTick 100); AcquirePoll; Timer (PerSecondTick 1004);
     Timer (CountdownTick 1100); Timer (PerMinuteTick 60010);
     Timer (CountdownTick 60100)] in
  clockMonotone 0 actions
  /\ inRange (perSecondCountdown
                (performAll defaultConfig actions
                   (initialState defaultConfig 0))) 1
  /\ inRange (perMinuteCountdown
                (performAll defaultConfig actions
                   (initialState defaultConfig 0))) 60.
Proof.
  cbv zeta.
  assert (H : clockMonotone 0
                [Timer (CountdownTick 100); AcquirePoll;
                 Timer (PerSecondTick 1004); Timer (CountdownTick 1100);
                 Timer (PerMinuteTick 60010); Timer (CountdownTick 60100)]).
  { cbn. repeat split; lia. }
  split; [exact H|].
  exact (@countdowns_within_window defaultConfig 0 _ H).
Defined.

(** A clock that goes back breaks the bound: the countdown then exceeds
    the window. *)
Example countdown_after_clock_went_back :
  eqb (perSecondCountdown
         (performAll defaultConfig [Timer (CountdownTick (-500))]
            (initialState defaultConfig 0)))
      (Num (3 # 2)) = true.
Proof. vm_compute. reflexivity. Qed.

(** ** The page *)

Lemma Qfloor_unique (x : Q) (n : Z) :
  (inject_Z n <= x)%Q -> (x < inject_Z (n + 1))%Q -> Qfloor x = n.
Proof.
  intros Hlo Hhi.
  pose proof (Qfloor_resp_le _ _ Hlo) as H1. rewrite Qfloor_Z in H1.
  pose proof (Qfloor_le x) as H2.
  assert (H3 : (inject_Z (Qfloor x) < inject_Z (n + 1))%Q) by lra.
  rewrite <- Zlt_Qlt in H3. lia.
Qed.

(** The minutes and seconds the page shows for a countdown [q >= 0] are
    whole numbers, the seconds lie between 0 and 59, and together they
    make up the countdown rounded down to whole seconds. *)
Theorem countdown_minutes_and_seconds (q : Q) :
  (0 <= q)%Q ->
  exists m s : Z,
    perMinuteCountdownMinutes (Num q) = Num (inject_Z m)
    /\ perMinuteCountdownSeconds (Num q) = Num (inject_Z s)
    /\ (0 <= m)%Z /\ (0 <= s <= 59)%Z
    /\ (60 * m + s)%Z = Qfloor q.
Proof.
  intros Hq.
  unfold perMinuteCountdownMinutes, perMinuteCountdownSeconds, floor, rem,
    div, ofZ.
  change (Qeq_bool (inject_Z 60) 0) with false. cbv iota.
  change (inject_Z 60) with 60%Q.
  assert (Hdiv : (0 <= q / 60)%Q) by (apply Qle_shift_div_l; lra).
  unfold truncate. rewrite (proj2 (Qle_bool_iff 0 (q / 60)) Hdiv).
  set (m := Qfloor (q / 60)).
  pose proof (Qfloor_le (q / 60)) as Hm1. fold m in Hm1.
  pose proof (Qlt_floor (q / 60)) as Hm2. fold m in Hm2.
  rewrite inject_Z_plus in Hm2. change (inject_Z 1) with 1%Q in Hm2.
  assert (Hq60 : (q == q / 60 * 60)%Q) by (field; discriminate).
  set (s := Qfloor (q - 60 * inject_Z m)).
  pose proof (Qfloor_le (q - 60 * inject_Z m)) as Hs1. fold s in Hs1.
  pose proof (Qlt_floor (q - 60 * inject_Z m)) as Hs2. fold s in Hs2.
  rewrite inject_Z_plus in Hs2. change (inject_Z 1) with 1%Q in Hs2.
  exists m, s. split; [reflexivity|]. split; [reflexivity|].
  assert (Hm0 : (0 <= m)%Z).
  { pose proof (Qfloor_resp_le _ _ Hdiv) as H.
    change 0%Q with (inject_Z 0) in H. rewrite Qfloor_Z in H. exact H. }
  assert (Hs0 : (0 <= s)%Z).
  { assert (H : (inject_Z 0 <= q - 60 * inject_Z m)%Q)
      by (change (inject_Z 0) with 0%Q; lra).
    apply Qfloor_resp_le in H. rewrite Qfloor_Z in H. exact H. }
  assert (Hs59 : (s < 60)%Z).
  { rewrite Zlt_Qlt. change (inject_Z 60) with 60%Q. lra. }
  repeat split; try lia.
  symmetry. apply Qfloor_unique.
  - rewrite inject_Z_plus, inject_Z_mult. change (inject_Z 60) with 60%Q. lra.
  - rewrite !inject_Z_plus, inject_Z_mult. change (inject_Z 60) with 60%Q.
    change (inject_Z 1) with 1%Q. lra.
Qed.

Lemma countdown_minutes_and_seconds_witness :
  (0 <= 119 # 2)%Q
  /\ exists m s : Z,
       perMinuteCountdownMinutes (Num (119 # 2)) = Num (inject_Z m)
       /\ perMinuteCountdownSeconds (Num (119 # 2)) = Num (inject_Z s)
       /\ (0 <= m)%Z /\ (0 <= s <= 59)%Z
       /\ (60 * m + s)%Z = Qfloor (119 # 2).
Proof.
  assert (H : (0 <= 119 # 2)%Q) by (vm_compute; discriminate).
  split; [exact H|].
  exact (@countdown_minutes_and_seconds (119 # 2) H).
Defined.

Example countdown_59_and_a_half :
  eqb (perMinuteCountdownMinutes (Num (119 # 2))) (ofZ 0) = true
  /\ eqb (perMinuteCountdownSeconds (Num (119 # 2))) (ofZ 59) = true
  /\ eqb (perMinuteCountdownMinutes (Num 60)) (ofZ 1) = true
  /\ eqb (perMinuteCountdownSeconds (Num 60)) (ofZ 0) = true.
Proof. repeat split; vm_compute; reflexivity. Qed.

Lemma indexProducers_fulfil (l : list nat) :
  Forall2 (@fulfils Z)
    (map (fun i => {| latency := 1; settlement := Resolves (Z.of_nat i) |}) l)
    (map Z.of_nat l).
Proof.
  induction l as [|i l IH]; cbn [map]; constructor.
  - reflexivity.
  - exact IH.
Qed.

Lemma length_indexProducers (n : nat) :
  List.length (indexProducers n) = n.
Proof. unfold indexProducers. rewrite length_map, length_seq. reflexivity. Qed.

Lemma length_resolvedPrefix (unknown : Type)
  (promiseFns : list (PromiseFn unknown)) :
  (List.length (resolvedPrefix promiseFns) <= List.length promiseFns)%nat.
Proof.
  induction promiseFns as [|fn rest IH]; cbn [resolvedPrefix List.length].
  - lia.
  - destruct (settlement fn); cbn [List.length]; lia.
Qed.

(** The page's callback overwrites what it keeps: after a run of calls
    only the last one shows. *)
Lemma applyCalls_home (calls : list (Z * Z)) :
  forall h,
    calls <> [] ->
    applyCalls homeOnProgressUpdate calls h
    = {| completedPromises := fst (last calls (0, 0)%Z);
         pendingPromisesRef := snd (last calls (0, 0)%Z) |}.
Proof.
  unfold applyCalls.
  induction calls as [|call rest IH]; intros h Hne; [congruence|].
  cbn [fold_left]. destruct rest as [|call' rest'].
  - reflexivity.
  - rewrite IH by discriminate. reflexivity.
Qed.

Lemma applyCalls_home_countUp (total : Z) (m : nat) (h : HomeState) :
  applyCalls homeOnProgressUpdate (countUp total 0 m) h
  = match m with
    | O => h
    | S _ => {| completedPromises := Z.of_nat m;
                pendingPromisesRef := (total - Z.of_nat m)%Z |}
    end.
Proof.
  destruct m as [|m']; [reflexivity|].
  rewrite applyCalls_home by (cbn; discriminate).
  rewrite countUp_last by lia. reflexivity.
Qed.

Lemma percentage_in_range (h : HomeState) :
  (0 <= completedPromises h <= totalPromises)%Z ->
  inRange (progressPercentage h) 100.
Proof.
  intros [H0 H1]. unfold progressPercentage, totalPromises in *.
  unfold ofZ, div.
  change (Qeq_bool (inject_Z 10000) 0) with false. cbv iota.
  cbn [mul inRange].
  assert (Hlo : (0 <= inject_Z (completedPromises h) / inject_Z 10000)%Q).
  { apply Qle_shift_div_l; [reflexivity|].
    change 0%Q with (inject_Z 0).
    rewrite <- inject_Z_mult, <- Zle_Qle. lia. }
  assert (Hhi : (inject_Z (completedPromises h) / inject_Z 10000 <= 1)%Q).
  { apply Qle_shift_div_r; [reflexivity|].
    change 1%Q with (inject_Z 1).
    rewrite <- inject_Z_mult, <- Zle_Qle. lia. }
  change (inject_Z 100) with 100%Q. split; lra.
Qed.

Section HomeInProvider.

Variable cfg : Config.
Variable sched : Schedule.

Lemma homeEffectOf_any_run (n polls : nat) (st st' : RateLimitState)
  (t : nat) :
  let out := homeEffectOf n (providerValue Z HomeState cfg sched st') polls
               (newRun st t homeInitial) in
  exists m,
    (m <= n)%nat
    /\ caller (snd out)
       = {| completedPromises := Z.of_nat m;
            pendingPromisesRef := (Z.of_nat n - Z.of_nat m)%Z |}.
Proof.
  cbv zeta. unfold homeEffectOf.
  cbn [providerValue ctx_executePromisesWithRateLimit].
  unfold executePromisesWithRateLimit.
  match goal with
  | |- context [drainLoop cfg sched polls ?cb ?total ?fns [] 0%Z ?r0] =>
      destruct (drainLoop_prefix cfg sched polls cb total fns [] 0%Z r0)
        as (_ & k & _ & Hc)
  end.
  rewrite Hc, progress_sequentialTrace, length_indexProducers.
  cbn [caller newRun homeInitial completedPromises].
  rewrite applyCalls_home_countUp.
  set (m := List.length (resolvedPrefix (firstn k (indexProducers n)))).
  assert (Hm : (m <= n)%nat).
  { unfold m.
    pose proof (length_resolvedPrefix (firstn k (indexProducers n))) as H1.
    rewrite length_firstn, length_indexProducers in H1. lia. }
  exists m. split; [exact Hm|].
  destruct m; [|reflexivity]. f_equal. cbn. lia.
Qed.

Lemma homeEffectOf_completes (n : nat) (st st' : RateLimitState) (t : nat) :
  capacitiesPositive cfg -> minuteTicksRecur sched ->
  exists polls0, forall polls, (polls0 <= polls)%nat ->
    let out := homeEffectOf n (providerValue Z HomeState cfg sched st') polls
                 (newRun st t homeInitial) in
    fst out = Fulfilled (map Z.of_nat (seq 0 n))
    /\ ((0 < n)%nat ->
        caller (snd out)
        = {| completedPromises := Z.of_nat n; pendingPromisesRef := 0 |}).
Proof.
  intros Hcap Hfair. unfold homeEffectOf.
  cbn [providerValue ctx_executePromisesWithRateLimit].
  unfold executePromisesWithRateLimit.
  match goal with
  | |- context [drainLoop cfg sched _ ?cb ?total ?fns [] 0%Z ?r0] =>
      destruct (drainLoop_sequential Hcap Hfair cb total fns [] 0%Z r0)
        as (polls0 & Hrun)
  end.
  destruct (all_fulfil (indexProducers_fulfil (seq 0 n))) as (Hp & Ho & _).
  fold (indexProducers n) in Hp, Ho.
  exists polls0. intros polls Hpolls.
  destruct (Hrun polls Hpolls) as (Hout & _ & Hc). cbv zeta.
  rewrite Hout, Hc, Ho, progress_sequentialTrace, Hp, length_map, length_seq,
    length_indexProducers, applyCalls_home_countUp.
  split; [reflexivity|].
  intros Hn. destruct n as [|n']; [lia|]. f_equal. lia.
Qed.

End HomeInProvider.

Lemma totalPromises_nat :
  Z.of_nat (Z.to_nat totalPromises) = totalPromises
  /\ (0 < Z.to_nat totalPromises)%nat.
Proof. unfold totalPromises. split; lia. Qed.

(** Under a provider whose capacities are positive and whose per-minute
    refill keeps coming, the page's drain of its 10000 tasks comes to an
    end: it resolves with the indices 0 to 9999 in order, the handler that
    logs the end runs, and the page then shows 10000 completed, 0 pending
    and a progress of 100 percent. *)
Theorem home_drain_completes (cfg : Config) (sched : Schedule)
  (st : RateLimitState) (t : nat) :
  capacitiesPositive cfg ->
  minuteTicksRecur sched ->
  exists polls0, forall polls, (polls0 <= polls)%nat ->
    exists out,
      Home cfg (Some (providerValue Z HomeState cfg sched st)) polls
        (newRun st t homeInitial) = Normal out
      /\ fst out = Fulfilled (map Z.of_nat (seq 0 (Z.to_nat totalPromises)))
      /\ allResolvedLogged out = true
      /\ caller (snd out)
         = {| completedPromises := totalPromises; pendingPromisesRef := 0 |}
      /\ eqb (progressPercentage (caller (snd out))) (ofZ 100) = true.
Proof.
  intros Hcap Hfair.
  destruct (@homeEffectOf_completes cfg sched (Z.to_nat totalPromises) st st t
              Hcap Hfair) as (polls0 & Hrun).
  destruct totalPromises_nat as (Hid & Hpos).
  exists polls0. intros polls Hpolls.
  destruct (Hrun polls Hpolls) as (Hout & Hc). cbv zeta in Hout, Hc.
  specialize (Hc Hpos). rewrite Hid in Hc.
  eexists. split; [reflexivity|].
  unfold allResolvedLogged, homeEffect. rewrite Hout, Hc.
  repeat split.
Qed.

Lemma home_drain_completes_witness :
  capacitiesPositive smallConfig
  /\ minuteTicksRecur steadySchedule
  /\ exists polls0, forall polls, (polls0 <= polls)%nat ->
       exists out,
         Home smallConfig
           (Some (providerValue Z HomeState smallConfig steadySchedule
                    (initialState smallConfig 0)))
           polls (newRun (initialState smallConfig 0) 0 homeInitial)
         = Normal out
         /\ fst out = Fulfilled (map Z.of_nat (seq 0 (Z.to_nat totalPromises)))
         /\ allResolvedLogged out = true
         /\ caller (snd out)
            = {| completedPromises := totalPromises; pendingPromisesRef := 0 |}
         /\ eqb (progressPercentage (caller (snd out))) (ofZ 100) = true.
Proof.
  split; [exact smallConfig_positive|].
  split; [exact steadySchedule_recurs|].
  exact (@home_drain_completes smallConfig steadySchedule
           (initialState smallConfig 0) 0%nat smallConfig_positive
           steadySchedule_recurs).
Defined.

(** However long the page's drain is observed under a provider, whatever
    the configuration and the timers, the page never throws and what it
    shows is consistent: completed and pending add up to 10000, completed
    lies between 0 and 10000, and the progress between 0 and 100
    percent. *)
Theorem home_counts_add_up (cfg : Config) (sched : Schedule) (polls : nat)
  (st st' : RateLimitState) (t : nat) :
  exists out,
    Home cfg (Some (providerValue Z HomeState cfg sched st')) polls
      (newRun st t homeInitial) = Normal out
    /\ (completedPromises (caller (snd out))
        + pendingPromisesRef (caller (snd out)))%Z = totalPromises
    /\ (0 <= completedPromises (caller (snd out)) <= totalPromises)%Z
    /\ inRange (progressPercentage (caller (snd out))) 100.
Proof.
  eexists. split; [reflexivity|].
  destruct (@homeEffectOf_any_run cfg sched (Z.to_nat totalPromises) polls
              st st' t) as (m & Hm & Hc).
  cbv zeta in Hc. destruct totalPromises_nat as (Hid & _).
  unfold homeEffect. rewrite Hc, Hid.
  cbn [completedPromises pendingPromisesRef].
  assert (Hb : (0 <= Z.of_nat m <= totalPromises)%Z) by lia.
  split; [lia|]. split; [exact Hb|].
  apply percentage_in_range. exact Hb.
Qed.


(** ** Bursts within the remaining tokens *)

Lemma atLeast_between0 (a cap : number) (k : nat) :
  between0 a cap -> atLeast a k -> atLeast cap k.
Proof.
  destruct a as [x|], cap as [y|]; cbn [between0 atLeast]; try tauto.
  intros [_ Hxy] Hk. lra.
Qed.

Lemma atLeast_S_decrement (a : number) (k : nat) :
  atLeast a (S k) ->
  le a (ofZ 0) = false /\ atLeast (max (sub a (ofZ 1)) (ofZ 0)) k.
Proof.
  destruct a as [q|]; cbn [atLeast]; [|tauto].
  rewrite Nat2Z.inj_succ. unfold Z.succ. rewrite inject_Z_plus.
  change (inject_Z 1) with 1%Q. intros Hq.
  assert (Hk : (0 <= inject_Z (Z.of_nat k))%Q).
  { change 0%Q with (inject_Z 0). rewrite <- Zle_Qle. lia. }
  split.
  - apply le_0_false_of_positive. cbn [positive]. lra.
  - rewrite decrement_Num.
    destruct (Qle_bool (q - 1) 0) eqn:E; cbn [atLeast]; [|lra].
    apply Qle_bool_iff in E. lra.
Qed.

Section Burst.

Variables unknown Caller : Type.
Variable cfg : Config.
Variable sched : Schedule.

(** Both counters are within their bounds and hold at least [k] tokens. *)
Lemma stocked_fireAll (k : nat) (es : list TimerEvent) :
  forall st,
    withinBounds cfg st ->
    atLeast (tokensPerSecondRemainingRef st) k ->
    atLeast (tokensPerMinuteRemainingRef st) k ->
    atLeast (tokensPerSecondRemainingRef (fireAll cfg es st)) k
    /\ atLeast (tokensPerMinuteRemainingRef (fireAll cfg es st)) k.
Proof.
  unfold fireAll. induction es as [|e es IH]; intros st Hb Hs Hm;
    cbn [fold_left].
  - auto.
  - pose proof Hb as (Bs & Bm & _ & _).
    pose proof (@atLeast_between0 _ _ _ Bs Hs) as Cs.
    pose proof (@atLeast_between0 _ _ _ Bm Hm) as Cm.
    apply IH; [apply withinBounds_fire, Hb | |]; destruct e; cbn; assumption.
Qed.

Lemma stocked_elapseN (k n : nat) :
  forall r : Run unknown Caller,
    withinBounds cfg (bucket r) ->
    atLeast (tokensPerSecondRemainingRef (bucket r)) k ->
    atLeast (tokensPerMinuteRemainingRef (bucket r)) k ->
    atLeast (tokensPerSecondRemainingRef (bucket (elapseN cfg sched n r))) k
    /\ atLeast (tokensPerMinuteRemainingRef
                  (bucket (elapseN cfg sched n r))) k.
Proof.
  induction n as [|n IH]; intros r Hb Hs Hm; cbn [elapseN].
  - auto.
  - destruct (@stocked_fireAll k (sched (turn r)) _ Hb Hs Hm) as (Hs' & Hm').
    apply IH; cbn [elapse bucket];
      [apply withinBounds_fireAll, Hb | exact Hs' | exact Hm'].
Qed.

Lemma drainLoop_burst (polls : nat)
  (onProgressUpdate : Z -> Z -> Caller -> Caller) (total : Z)
  (promiseFns : list (PromiseFn unknown)) (vs : list unknown) :
  Forall2 (@fulfils unknown) promiseFns vs ->
  forall (results : list unknown) (completed : Z) (r : Run unknown Caller),
    withinBounds cfg (bucket r) ->
    atLeast (tokensPerSecondRemainingRef (bucket r))
      (List.length promiseFns) ->
    atLeast (tokensPerMinuteRemainingRef (bucket r))
      (List.length promiseFns) ->
    let out := drainLoop cfg sched polls onProgressUpdate total promiseFns
                 results completed r in
    fst out = Fulfilled (results ++ vs)
    /\ turn (snd out)
       = (turn r + list_sum (map (@latency unknown) promiseFns))%nat.
Proof.
  induction 1 as [|fn v rest vs' Hfn _ IH];
    intros results completed r Hb Hs Hm; cbn [drainLoop List.length] in *;
    cbv zeta.
  - rewrite app_nil_r. cbn. auto.
  - destruct (@atLeast_S_decrement _ _ Hs) as (Es & Hs1).
    destruct (@atLeast_S_decrement _ _ Hm) as (Em & Hm1).
    assert (E : mustWait (bucket r) = false)
      by (unfold mustWait; rewrite Es, Em; reflexivity).
    assert (Hc : consumeToken cfg sched polls r = (Fulfilled tt, grant r))
      by (destruct polls; cbn [consumeToken]; rewrite E; reflexivity).
    rewrite Hc. unfold fulfils in Hfn. rewrite Hfn.
    set (r2 := elapseN cfg sched (latency fn) (emit (Invoked fn) (grant r))).
    assert (Hb1 : withinBounds cfg (bucket (emit (Invoked fn) (grant r))))
      by (cbn [emit grant bucket]; apply withinBounds_takeToken, Hb).
    assert (Hb2 : withinBounds cfg (bucket r2))
      by (apply withinBounds_elapseN; exact Hb1).
    destruct (@stocked_elapseN (List.length rest) (latency fn)
                (emit (Invoked fn) (grant r)) Hb1 Hs1 Hm1) as (Hs2 & Hm2).
    fold r2 in Hs2, Hm2.
    set (r4 := progress onProgressUpdate (completed + 1)
                 (total - (completed + 1)) (emit (Recorded v) r2)).
    destruct (IH (results ++ [v]) (completed + 1)%Z r4 Hb2 Hs2 Hm2)
      as (Ho & Ht).
    cbv zeta in Ho, Ht. rewrite Ho, Ht, <- app_assoc.
    split; [reflexivity|].
    change (turn r4) with (turn r2). unfold r2.
    rewrite turn_elapseN. cbn [emit grant turn map].
    change (list_sum (latency fn :: map (@latency unknown) rest))
      with (latency fn + list_sum (map (@latency unknown) rest))%nat.
    lia.
Qed.

(** A burst that fits into the tokens that remain is not delayed.  From
    counters within their bounds that both hold at least N tokens, a queue
    of N producers that resolve is drained without a single sleep, for
    every schedule of the timers: the drain resolves with the N results in
    exactly the turns the tasks themselves take. *)
Theorem burst_within_tokens_is_not_delayed (polls : nat)
  (promiseFns : list (PromiseFn unknown)) (vs : list unknown)
  (onProgressUpdate : Z -> Z -> Caller -> Caller) (st : RateLimitState)
  (t : nat) (c : Caller) :
  withinBounds cfg st ->
  atLeast (tokensPerSecondRemainingRef st) (List.length promiseFns) ->
  atLeast (tokensPerMinuteRemainingRef st) (List.length promiseFns) ->
  Forall2 (@fulfils unknown) promiseFns vs ->
  let out := executePromisesWithRateLimit cfg sched polls promiseFns
               onProgressUpdate (newRun st t c) in
  fst out = Fulfilled vs
  /\ turn (snd out)
     = (t + list_sum (map (@latency unknown) promiseFns))%nat.
Proof.
  intros Hb Hs Hm Hall. cbv zeta. unfold executePromisesWithRateLimit.
  apply (@drainLoop_burst polls onProgressUpdate
           (Z.of_nat (List.length promiseFns)) promiseFns vs Hall [] 0%Z
           (newRun st t c) Hb Hs Hm).
Qed.

End Burst.

(** ** The further theorems at the sample inputs *)

Lemma smallConfig_initial_withinBounds :
  withinBounds smallConfig (initialState smallConfig 0).
Proof. apply withinBounds_iff. vm_compute. reflexivity. Qed.

Lemma smallConfig_atMost :
  atMost (adjustedMaxTokensPerSecond smallConfig) 2
  /\ atMost (adjustedMaxTokensPerMinute smallConfig) 100.
Proof. split; vm_compute; discriminate. Qed.



(** The bound is reached: a per-minute refill followed 10 ms later by a
    per-second refill lets 6 tokens through with a second capacity of 2. *)
Example second_bound_is_reached :
  tokensGranted smallConfig
    [AcquirePoll; AcquirePoll; AcquirePoll; Timer (PerMinuteTick 60010);
     AcquirePoll; AcquirePoll; Timer (PerSecondTick 60020); AcquirePoll;
     AcquirePoll; AcquirePoll]
    (initialState smallConfig 0) = 6%nat.
Proof. vm_compute. reflexivity. Qed.

Lemma drain_keeps_counters_within_bounds_witness :
  withinBounds smallConfig (initialState smallConfig 0)
  /\ withinBounds smallConfig
       (bucket (snd (executePromisesWithRateLimit smallConfig steadySchedule
                       20 failingTasks lastProgress
                       (newRun (initialState smallConfig 0) 0 (0, 0)%Z)))).
Proof.
  split; [exact smallConfig_initial_withinBounds|].
  exact (@drain_keeps_counters_within_bounds Z (Z * Z) smallConfig
           steadySchedule 20 failingTasks lastProgress
           (newRun (initialState smallConfig 0) 0 (0, 0)%Z)
           smallConfig_initial_withinBounds).
Defined.

Lemma burst_within_tokens_is_not_delayed_witness :
  withinBounds defaultConfig (initialState defaultConfig 0)
  /\ atLeast (tokensPerSecondRemainingRef (initialState defaultConfig 0))
       (List.length fiveTasks)
  /\ atLeast (tokensPerMinuteRemainingRef (initialState defaultConfig 0))
       (List.length fiveTasks)
  /\ let out := executePromisesWithRateLimit defaultConfig steadySchedule 0
                  fiveTasks lastProgress
                  (newRun (initialState defaultConfig 0) 0 (0, 0)%Z) in
     fst out = Fulfilled [0; 1; 2; 3; 4]%Z
     /\ turn (snd out) = (0 + list_sum (map (@latency Z) fiveTasks))%nat.
Proof.
  assert (Hb : withinBounds defaultConfig (initialState defaultConfig 0))
    by (apply withinBounds_iff; vm_compute; reflexivity).
  assert (Hs : atLeast (tokensPerSecondRemainingRef
                          (initialState defaultConfig 0))
                 (List.length fiveTasks))
    by (vm_compute; discriminate).
  assert (Hm : atLeast (tokensPerMinuteRemainingRef
                          (initialState defaultConfig 0))
                 (List.length fiveTasks))
    by (vm_compute; discriminate).
  split; [exact Hb|]. split; [exact Hs|]. split; [exact Hm|].
  exact (@burst_within_tokens_is_not_delayed Z (Z * Z) defaultConfig
           steadySchedule 0 fiveTasks [0; 1; 2; 3; 4]%Z lastProgress
           (initialState defaultConfig 0) 0%nat (0, 0)%Z Hb Hs Hm
           fiveTasks_fulfil).
Defined.
